(** * The state units of [@synet/state]: memory store, storage fallback, events

    A shallow embedding of [src/state.unit.ts] ([State], the synchronous
    memory-only unit) and [src/state-async.unit.ts] ([StateAsync], the unit
    that delegates to an optional storage binding and falls back to memory),
    followed by the properties of the fallback protocol, of the change events
    and of the teaching contract.

    Modelling conventions.
    - [currentState] is a plain object used as a dictionary: its own
      properties, a [gmap string JsValue], and its prototype, which is
      [Object.prototype] unless an assignment to ["__proto__"] replaced it.
      [obj[key]] is [read_property], [key in obj] is [has_property],
      [obj[key] = value] is [write_property]: all three go through the
      prototype chain, so the names every object inherits (["constructor"],
      ["toString"], ["__proto__"], ...) answer as they do in the program.
    - A method is a function on an explicit runtime (the unit's props, the
      state of the storage provider, the console, the record of handler
      invocations) that yields an outcome, returned or thrown, and the next
      runtime.  [await] of a rejected promise throws at the await.
    - A storage binding is a black box with a state of its own: each of its
      operations maps that state to a settled promise and a next state.
    - An event handler is an observer: the model records every invocation
      (who was called, with which data) and lets the handler return or
      throw.  A handler that calls back into the unit during the dispatch
      ([set], [emit] or [on] from inside the handler), and the interleaving
      of two pending calls, are outside the model; what is said of a
      dispatch is said of observers.
    - The base class [Unit] and [createUnitSchema] belong to [@synet/unit]
      and are not part of these sources.  Two facts about them are used:
      the props of a unit are frozen (the README: "Immutable props with
      mutable state container"), and [createUnitSchema] makes the identity
      record; that it refuses some ids by throwing is not modelled, [create]
      is the unit that was made. *)

From stdpp Require Import base option list gmap strings.
From Stdlib Require Import ZArith.

(** ** Values of type [unknown] *)

(** [JsObject fields] is a plain data object with these own properties (a
    later field of the same name wins) and [Object.prototype] as prototype;
    [JsBuiltin name] is an object of the language itself, by its usual name
    (["Object.prototype"], ["Object"], ["Object.prototype.toString"]). *)
#[warnings="-register-all"]
Inductive JsValue : Type :=
| JsUndefined
| JsNull
| JsBoolean (b : bool)
| JsNumber (n : Z)
| JsString (s : string)
| JsObject (fields : list (string * JsValue))
| JsBuiltin (name : string).

(** [a ?? b] *)
Definition nullish_coalesce (a b : JsValue) : JsValue :=
  match a with
  | JsUndefined | JsNull => b
  | _ => a
  end.

(** ** Plain objects and their prototype chain *)

(** What an object can have as prototype: nothing, an object of the
    language, or a plain data object (whose own prototype is
    [Object.prototype]). *)
Inductive Prototype : Type :=
| NullPrototype
| BuiltinPrototype (name : string)
| ObjectAsPrototype (fields : list (string * JsValue)).

Definition ObjectPrototype : Prototype := BuiltinPrototype "Object.prototype".

(** The prototype as the value the [__proto__] getter returns. *)
Definition prototype_value (p : Prototype) : JsValue :=
  match p with
  | NullPrototype => JsNull
  | BuiltinPrototype name => JsBuiltin name
  | ObjectAsPrototype fields => JsObject fields
  end.

Record PlainObject : Type := {
  own : gmap string JsValue;
  prototype : Prototype
}.

(** An object literal, [{}] or [{ ...properties }]. *)
Definition literal (properties : gmap string JsValue) : PlainObject :=
  {| own := properties; prototype := ObjectPrototype |}.

(** [obj !! key] is the own property [key] of [obj], if it has one. *)
#[global] Instance PlainObject_lookup : Lookup string JsValue PlainObject :=
  fun key obj => own obj !! key.

(** The own property [key] of a data object given by its fields. *)
Fixpoint field (fields : list (string * JsValue)) (key : string) : option JsValue :=
  match fields with
  | [] => None
  | (name, value) :: rest =>
      match field rest key with
      | Some later => Some later
      | None => if bool_decide (name = key) then Some value else None
      end
  end.

(** A property found on the prototype chain: a data property, or the
    accessor [__proto__] of [Object.prototype]. *)
Inductive Member : Type :=
| DataMember (value : JsValue)
| ProtoAccessor.

(** The function-valued properties of [Object.prototype]. *)
Definition object_prototype_functions : list (string * JsValue) :=
  [("constructor", JsBuiltin "Object");
   ("__defineGetter__", JsBuiltin "Object.prototype.__defineGetter__");
   ("__defineSetter__", JsBuiltin "Object.prototype.__defineSetter__");
   ("hasOwnProperty", JsBuiltin "Object.prototype.hasOwnProperty");
   ("__lookupGetter__", JsBuiltin "Object.prototype.__lookupGetter__");
   ("__lookupSetter__", JsBuiltin "Object.prototype.__lookupSetter__");
   ("isPrototypeOf", JsBuiltin "Object.prototype.isPrototypeOf");
   ("propertyIsEnumerable", JsBuiltin "Object.prototype.propertyIsEnumerable");
   ("toString", JsBuiltin "Object.prototype.toString");
   ("valueOf", JsBuiltin "Object.prototype.valueOf");
   ("toLocaleString", JsBuiltin "Object.prototype.toLocaleString")].

Definition object_prototype_member (key : string) : option Member :=
  if bool_decide (key = "__proto__") then Some ProtoAccessor
  else DataMember <$> field object_prototype_functions key.

(** The names every object with [Object.prototype] on its chain answers to. *)
Definition object_prototype_names : list string :=
  "__proto__" :: object_prototype_functions.*1.

(** The property [key] as an object with prototype [p] inherits it.  Of an
    object of the language other than [Object.prototype] only what it has
    from [Object.prototype] is modelled. *)
Definition inherited (p : Prototype) (key : string) : option Member :=
  match p with
  | NullPrototype => None
  | BuiltinPrototype _ => object_prototype_member key
  | ObjectAsPrototype fields =>
      match field fields key with
      | Some value => Some (DataMember value)
      | None => object_prototype_member key
      end
  end.

(** The prototypes whose members [inherited] has in full: none,
    [Object.prototype] (that of every object literal) and a plain data
    object.  A function of the language has members of its own (["name"],
    ["length"], ...) that are left out. *)
Definition modelled (p : Prototype) : bool :=
  match p with
  | NullPrototype => true
  | BuiltinPrototype name => bool_decide (name = "Object.prototype")
  | ObjectAsPrototype _ => true
  end.

(** [obj[key]]: the own property, else the inherited one (the [__proto__]
    getter returns the prototype), else [undefined]. *)
Definition read_property (obj : PlainObject) (key : string) : JsValue :=
  match own obj !! key with
  | Some value => value
  | None =>
      match inherited (prototype obj) key with
      | Some (DataMember value) => value
      | Some ProtoAccessor => prototype_value (prototype obj)
      | None => JsUndefined
      end
  end.

(** [key in obj]: own or inherited. *)
Definition has_property (obj : PlainObject) (key : string) : bool :=
  bool_decide (is_Some (own obj !! key))
  || bool_decide (is_Some (inherited (prototype obj) key)).

(** What the [__proto__] setter does with [value]: an object or [null]
    becomes the prototype, anything else is ignored. *)
Definition set_prototype (obj : PlainObject) (value : JsValue) : PlainObject :=
  match value with
  | JsNull => {| own := own obj; prototype := NullPrototype |}
  | JsObject fields => {| own := own obj; prototype := ObjectAsPrototype fields |}
  | JsBuiltin name => {| own := own obj; prototype := BuiltinPrototype name |}
  | _ => obj
  end.

(** [obj[key] = value]: an own property is overwritten; a key that
    resolves to the inherited [__proto__] accessor goes to its setter; any
    other key becomes an own property. *)
Definition write_property (obj : PlainObject) (key : string) (value : JsValue)
  : PlainObject :=
  match own obj !! key, inherited (prototype obj) key with
  | None, Some ProtoAccessor => set_prototype obj value
  | _, _ => {| own := <[key := value]> (own obj); prototype := prototype obj |}
  end.

(** [delete obj[key]]: own properties only. *)
Definition delete_property (obj : PlainObject) (key : string) : PlainObject :=
  {| own := delete key (own obj); prototype := prototype obj |}.

(** The payload of an automatic change event, [{ oldValue, newValue: value }]. *)
Definition change_payload (oldValue value : JsValue) : JsValue :=
  JsObject [("oldValue", oldValue); ("newValue", value)].

(** ** Outcomes and effects *)

(** What was thrown, tagged with where it came from. *)
Inductive Thrown : Type :=
| StorageFailure (message : string)
| HandlerFailure (message : string)
| TypeError (message : string).

Inductive Outcome (A : Type) : Type :=
| Returns (a : A)
| Throws (t : Thrown).
Arguments Returns {A} a.
Arguments Throws {A} t.

(** A settled promise of a storage provider. *)
Inductive Settled (A : Type) : Type :=
| Resolved (a : A)
| Rejected (message : string).
Arguments Resolved {A} a.
Arguments Rejected {A} message.

Definition Eff (W A : Type) : Type := W -> Outcome A * W.

Definition ret {W A} (a : A) : Eff W A := fun w => (Returns a, w).

Definition bind {W A B} (m : Eff W A) (k : A -> Eff W B) : Eff W B :=
  fun w =>
    match m w with
    | (Returns a, w') => k a w'
    | (Throws t, w') => (Throws t, w')
    end.

(** [try { body } catch (error) { handler(error) }]: what [body] did to the
    runtime before it threw stays done. *)
Definition try_catch {W A} (body : Eff W A) (handler : Thrown -> Eff W A) : Eff W A :=
  fun w =>
    match body w with
    | (Returns a, w') => (Returns a, w')
    | (Throws t, w') => handler t w'
    end.

Declare Scope eff_scope.
Delimit Scope eff_scope with eff.
Notation "'let!' x ':=' m 'in' k" := (bind m (fun x => k))
  (at level 10, x name, m at level 100, k at level 200) : eff_scope.
Notation "m ';;;' k" := (bind m (fun _ => k))
  (at level 100, k at level 200, right associativity) : eff_scope.

(** ** Event handlers *)

(** [type EventHandler = (data: unknown) => void]: a callable of the host
    program.  [handler_id] says which one it is, [handler_body] whether the
    call with [data] returns ([None]) or throws ([Some message]). *)
Record EventHandler : Type := {
  handler_id : nat;
  handler_body : JsValue -> option string
}.

(** One recorded call [handler(data)]. *)
Definition Invocation : Type := nat * JsValue.

(** [for (const handler of handlers) { handler(data); }] *)
Fixpoint invoke_all (handlers : list EventHandler) (data : JsValue)
    (calls : list Invocation) : Outcome unit * list Invocation :=
  match handlers with
  | [] => (Returns tt, calls)
  | handler :: rest =>
      let calls' := calls ++ [(handler_id handler, data)] in
      match handler_body handler data with
      | Some message => (Throws (HandlerFailure message), calls')
      | None => invoke_all rest data calls'
      end
  end.

(** The body of [on], on the handler registry [Map<string, EventHandler[]>]. *)
Definition register (eventHandlers : gmap string (list EventHandler))
    (event : string) (handler : EventHandler) : gmap string (list EventHandler) :=
  let eventHandlers :=
    if bool_decide (is_Some (eventHandlers !! event)) then eventHandlers
    else <[event := []]> eventHandlers in
  match eventHandlers !! event with
  | Some handlers => <[event := handlers ++ [handler]]> eventHandlers
  | None => eventHandlers
  end.

(** [this.props.eventHandlers.get(event) || []] *)
Definition handlers_of (eventHandlers : gmap string (list EventHandler))
    (event : string) : list EventHandler :=
  default [] (eventHandlers !! event).

(** No handler subscribed to [event] throws on [data]. *)
Definition quiet (eventHandlers : gmap string (list EventHandler))
    (event : string) (data : JsValue) : Prop :=
  Forall (fun handler => handler_body handler data = None)
         (handlers_of eventHandlers event).

(** The calls in [calls] that went to the handler [id], in order. *)
Definition payloads_of (id : nat) (calls : list Invocation) : list JsValue :=
  snd <$> filter (fun call => fst call = id) calls.

(** ** The host framework, [@synet/unit]

    Only what the state units take from it: the identity record made by
    [createUnitSchema] and the shape of a teaching contract. *)

Module Unit.

Record UnitSchema : Type := { id : string; version : string }.

Definition createUnitSchema (id version : string) : UnitSchema :=
  {| id := id; version := version |}.

(** A bound callable of [TeachingContract.capabilities], by the shape of
    the method it closes over.  It runs against the runtime it is called
    in: the closure holds the unit, not a copy of its state. *)
Inductive Capability (W : Type) : Type :=
| KeyToValue (run : string -> Eff W JsValue)
| KeyToBoolean (run : string -> Eff W bool)
| Snapshot (run : Eff W (gmap string JsValue))
| Subscribe (run : string -> EventHandler -> Eff W unit).
Arguments KeyToValue {W} run.
Arguments KeyToBoolean {W} run.
Arguments Snapshot {W} run.
Arguments Subscribe {W} run.

(** One property of a schema's [parameters] or [response]. *)
Record Property : Type := {
  property_name : string;
  property_type : string;
  property_description : string
}.

(** One entry of [TeachingContract.schema]. *)
Record ToolSchema : Type := {
  name : string;
  description : string;
  parameters : list Property;
  required : list string;
  response_type : string;
  response : list Property
}.

Record TeachingContract (W : Type) : Type := {
  unitId : string;
  capabilities : gmap string (Capability W);
  schema : option (gmap string ToolSchema)
}.
Arguments unitId {W} _.
Arguments capabilities {W} _.
Arguments schema {W} _.

End Unit.

(** ** [State]: the synchronous, memory-only unit ([src/state.unit.ts]) *)

Module State.

Record StateConfig : Type := {
  unitId : string;
  initialState : gmap string JsValue
}.

Record StateProps : Type := {
  dna : Unit.UnitSchema;
  ownerId : string;
  currentState : PlainObject;
  eventHandlers : gmap string (list EventHandler)
}.

(** [State.create(config)] *)
Definition create (config : StateConfig) : StateProps :=
  {| dna := Unit.createUnitSchema ("state-" +:+ unitId config) "1.0.0";
     ownerId := unitId config;
     currentState := literal (initialState config);
     eventHandlers := ∅ |}.

(** The unit and what its handlers were called with. *)
Record Runtime : Type := {
  props : StateProps;
  calls : list Invocation
}.

Definition boot (p : StateProps) : Runtime := {| props := p; calls := [] |}.

Definition with_currentState (m : PlainObject) (w : Runtime) : Runtime :=
  {| props := {| dna := dna (props w); ownerId := ownerId (props w);
                 currentState := m;
                 eventHandlers := eventHandlers (props w) |};
     calls := calls w |}.

Definition with_eventHandlers (h : gmap string (list EventHandler)) (w : Runtime)
  : Runtime :=
  {| props := {| dna := dna (props w); ownerId := ownerId (props w);
                 currentState := currentState (props w);
                 eventHandlers := h |};
     calls := calls w |}.

Definition with_calls (c : list Invocation) (w : Runtime) : Runtime :=
  {| props := props w; calls := c |}.

Local Open Scope eff_scope.

Definition get (key : string) : Eff Runtime JsValue :=
  fun w => (Returns (read_property (currentState (props w)) key), w).

Definition emit (event : string) (data : JsValue) : Eff Runtime unit :=
  fun w =>
    let (outcome, calls') :=
      invoke_all (handlers_of (eventHandlers (props w)) event) data (calls w) in
    (outcome, with_calls calls' w).

Definition set (key : string) (value : JsValue) : Eff Runtime unit :=
  let! oldValue := (fun w => (Returns (read_property (currentState (props w)) key), w)) in
  (fun w => (Returns tt,
             with_currentState (write_property (currentState (props w)) key value) w)) ;;;
  emit (key +:+ ".changed") (change_payload oldValue value).

Definition has (key : string) : Eff Runtime bool :=
  fun w => (Returns (has_property (currentState (props w)) key), w).

(** [{ ...this.props.currentState }]: a new object with the own
    properties, given by them. *)
Definition getAll : Eff Runtime (gmap string JsValue) :=
  fun w => (Returns (own (currentState (props w))), w).

Definition on (event : string) (handler : EventHandler) : Eff Runtime unit :=
  fun w =>
    (Returns tt, with_eventHandlers (register (eventHandlers (props w)) event handler) w).

Definition teach : Eff Runtime (Unit.TeachingContract Runtime) :=
  fun w =>
    (Returns
       {| Unit.unitId := Unit.id (dna (props w));
          Unit.capabilities :=
            list_to_map
              [("get", Unit.KeyToValue get);
               ("has", Unit.KeyToBoolean has);
               ("getAll", Unit.Snapshot getAll);
               ("on", Unit.Subscribe on)];
          Unit.schema := None |},
     w).

Definition whoami : Eff Runtime string :=
  fun w =>
    (Returns ("State[" +:+ ownerId (props w) +:+ "] - v"
              +:+ Unit.version (dna (props w))), w).

End State.

(** ** [StorageBinding]: what the asynchronous unit expects of a provider *)

Module Binding.

(** A provider with internal state [S].  [get] resolves to a value or to
    [null]; [exists] and [clear] may be missing ([None]), which is not the
    same as being there and rejecting. *)
Record StorageBinding (S : Type) : Type := {
  get : string -> S -> Settled JsValue * S;
  set : string -> JsValue -> option Z -> S -> Settled unit * S;
  delete : string -> S -> Settled bool * S;
  exists_ : option (string -> S -> Settled bool * S);
  clear : option (S -> Settled unit * S)
}.
Arguments get {S} _.
Arguments set {S} _.
Arguments delete {S} _.
Arguments exists_ {S} _.
Arguments clear {S} _.

End Binding.

(** ** [StateAsync]: storage first, memory as fallback
    ([src/state-async.unit.ts]) *)

Module Config.

Record StateAsyncConfig (S : Type) : Type := {
  unitId : string;
  initialState : option (gmap string JsValue);
  emitEvents : option bool;
  storage : option (Binding.StorageBinding S)
}.
Arguments unitId {S} _.
Arguments initialState {S} _.
Arguments emitEvents {S} _.
Arguments storage {S} _.

End Config.

Module StateAsync.

Section WithBackend.

Context {S : Type}.

Record StateAsyncProps : Type := {
  dna : Unit.UnitSchema;
  ownerId : string;
  currentState : PlainObject;
  eventHandlers : gmap string (list EventHandler);
  emitEvents : bool;
  storage : option (Binding.StorageBinding S)
}.

(** [StateAsync.create(config)] *)
Definition create (config : Config.StateAsyncConfig S) : StateAsyncProps :=
  {| dna := Unit.createUnitSchema ("state-" +:+ Config.unitId config) "1.0.0";
     ownerId := Config.unitId config;
     currentState := literal (default ∅ (Config.initialState config));
     eventHandlers := ∅;
     emitEvents := default false (Config.emitEvents config);
     storage := Config.storage config |}.

(** The unit, the provider's state, the warnings on the console and what
    the handlers were called with. *)
Record Runtime : Type := {
  props : StateAsyncProps;
  backend : S;
  console : list (string * Thrown);
  calls : list Invocation
}.

Definition boot (p : StateAsyncProps) (s : S) : Runtime :=
  {| props := p; backend := s; console := []; calls := [] |}.

Definition with_currentState (m : PlainObject) (w : Runtime) : Runtime :=
  {| props := {| dna := dna (props w); ownerId := ownerId (props w);
                 currentState := m;
                 eventHandlers := eventHandlers (props w);
                 emitEvents := emitEvents (props w);
                 storage := storage (props w) |};
     backend := backend w; console := console w; calls := calls w |}.

Definition with_eventHandlers (h : gmap string (list EventHandler)) (w : Runtime)
  : Runtime :=
  {| props := {| dna := dna (props w); ownerId := ownerId (props w);
                 currentState := currentState (props w);
                 eventHandlers := h;
                 emitEvents := emitEvents (props w);
                 storage := storage (props w) |};
     backend := backend w; console := console w; calls := calls w |}.

Definition with_backend (s : S) (w : Runtime) : Runtime :=
  {| props := props w; backend := s; console := console w; calls := calls w |}.

Definition with_console (c : list (string * Thrown)) (w : Runtime) : Runtime :=
  {| props := props w; backend := backend w; console := c; calls := calls w |}.

Definition with_calls (c : list Invocation) (w : Runtime) : Runtime :=
  {| props := props w; backend := backend w; console := console w; calls := c |}.

Local Open Scope eff_scope.

(** [this.props] *)
Definition this_props : Eff Runtime StateAsyncProps :=
  fun w => (Returns (props w), w).

(** [await call]: the provider moves on; a rejection throws here. *)
Definition await {A} (call : S -> Settled A * S) : Eff Runtime A :=
  fun w =>
    let (settled, s') := call (backend w) in
    (match settled with
     | Resolved a => Returns a
     | Rejected message => Throws (StorageFailure message)
     end,
     with_backend s' w).

(** [console.warn(text, error)] *)
Definition console_warn (text : string) (error : Thrown) : Eff Runtime unit :=
  fun w => (Returns tt, with_console (console w ++ [(text, error)]) w).

(** [this.props.<name> = ...]: the props are frozen, the assignment throws
    and nothing is assigned. *)
Definition assign_frozen (name : string) : Eff Runtime unit :=
  fun w =>
    (Throws (TypeError ("Cannot assign to read only property '" +:+ name
                        +:+ "' of object '#<Object>'")), w).

(** [this.props.currentState[key] = value] *)
Definition assign (key : string) (value : JsValue) : Eff Runtime unit :=
  fun w =>
    (Returns tt,
     with_currentState (write_property (currentState (props w)) key value) w).

Definition emit (event : string) (data : JsValue) : Eff Runtime unit :=
  fun w =>
    let (outcome, calls') :=
      invoke_all (handlers_of (eventHandlers (props w)) event) data (calls w) in
    (outcome, with_calls calls' w).

Definition get (key : string) : Eff Runtime JsValue :=
  let! this := this_props in
  let! fromStorage :=
    match storage this with
    | Some binding =>
        try_catch
          (let! value := await (Binding.get binding key) in
           ret (Some (nullish_coalesce value JsUndefined)))
          (fun error =>
             console_warn ("[" +:+ Unit.id (dna this)
                           +:+ "] Storage get failed for key '" +:+ key +:+ "':")
                          error ;;;
             ret None)
    | None => ret None
    end in
  match fromStorage with
  | Some value => ret value
  | None =>
      let! this := this_props in
      ret (read_property (currentState this) key)
  end.

Definition set (key : string) (value : JsValue) (ttl : option Z) : Eff Runtime unit :=
  let! this := this_props in
  let oldValue := read_property (currentState this) key in
  match storage this with
  | Some binding =>
      try_catch
        (await (Binding.set binding key value ttl))
        (fun error =>
           console_warn ("[" +:+ Unit.id (dna this)
                         +:+ "] Storage set failed for key '" +:+ key +:+ "':")
                        error ;;;
           assign key value)
  | None => assign key value
  end ;;;
  let! this := this_props in
  if emitEvents this
  then emit (key +:+ ".changed") (change_payload oldValue value)
  else ret tt.

Definition has (key : string) : Eff Runtime bool :=
  let! this := this_props in
  let! fromStorage :=
    match match storage this with
          | Some binding => Binding.exists_ binding
          | None => None
          end with
    | Some exists_ =>
        try_catch
          (let! found := await (exists_ key) in ret (Some found))
          (fun error =>
             console_warn ("[" +:+ Unit.id (dna this)
                           +:+ "] Storage exists failed for key '" +:+ key +:+ "':")
                          error ;;;
             ret None)
    | None => ret None
    end in
  match fromStorage with
  | Some found => ret found
  | None =>
      let! this := this_props in
      ret (has_property (currentState this) key)
  end.

Definition delete (key : string) : Eff Runtime bool :=
  let! this := this_props in
  let! storageDeleted :=
    match storage this with
    | Some binding =>
        try_catch
          (await (Binding.delete binding key))
          (fun error =>
             console_warn ("[" +:+ Unit.id (dna this)
                           +:+ "] Storage delete failed for key '" +:+ key +:+ "':")
                          error ;;;
             ret false)
    | None => ret false
    end in
  let! this := this_props in
  let existed := has_property (currentState this) key in
  (fun w =>
     (Returns tt,
      with_currentState (delete_property (currentState (props w)) key) w)) ;;;
  ret (storageDeleted || existed).

Definition clear : Eff Runtime unit :=
  let! this := this_props in
  match match storage this with
        | Some binding => Binding.clear binding
        | None => None
        end with
  | Some clear_ =>
      try_catch
        (await clear_)
        (fun error =>
           console_warn ("[" +:+ Unit.id (dna this) +:+ "] Storage clear failed:")
                        error)
  | None => ret tt
  end ;;;
  assign_frozen "currentState".

(** [{ ...this.props.currentState }]: a new object with the own
    properties, given by them. *)
Definition getAll : Eff Runtime (gmap string JsValue) :=
  fun w => (Returns (own (currentState (props w))), w).

Definition on (event : string) (handler : EventHandler) : Eff Runtime unit :=
  fun w =>
    (Returns tt, with_eventHandlers (register (eventHandlers (props w)) event handler) w).

(** The descriptive half of the contract: metadata, never enforced. *)
Definition teach_schema : gmap string Unit.ToolSchema :=
  list_to_map
    [("get",
      {| Unit.name := "get";
         Unit.description :=
           "Retrieve value by key from state (memory + optional storage)";
         Unit.parameters :=
           [{| Unit.property_name := "key"; Unit.property_type := "string";
               Unit.property_description := "Key to retrieve" |}];
         Unit.required := ["key"];
         Unit.response_type := "object";
         Unit.response :=
           [{| Unit.property_name := "value"; Unit.property_type := "unknown";
               Unit.property_description := "Retrieved value or undefined" |}] |});
     ("has",
      {| Unit.name := "has";
         Unit.description := "Check if key exists in state";
         Unit.parameters :=
           [{| Unit.property_name := "key"; Unit.property_type := "string";
               Unit.property_description := "Key to check" |}];
         Unit.required := ["key"];
         Unit.response_type := "boolean";
         Unit.response := [] |});
     ("getAll",
      {| Unit.name := "getAll";
         Unit.description := "Get all state data as object";
         Unit.parameters := [];
         Unit.required := [];
         Unit.response_type := "object";
         Unit.response :=
           [{| Unit.property_name := "state"; Unit.property_type := "object";
               Unit.property_description := "Complete state object" |}] |});
     ("on",
      {| Unit.name := "on";
         Unit.description := "Subscribe to state change events";
         Unit.parameters :=
           [{| Unit.property_name := "event"; Unit.property_type := "string";
               Unit.property_description := "Event name to listen for" |};
            {| Unit.property_name := "handler"; Unit.property_type := "object";
               Unit.property_description := "Event handler function" |}];
         Unit.required := ["event"; "handler"];
         Unit.response_type := "object";
         Unit.response :=
           [{| Unit.property_name := "unsubscribe"; Unit.property_type := "object";
               Unit.property_description := "Function to unsubscribe" |}] |})].

Definition teach : Eff Runtime (Unit.TeachingContract Runtime) :=
  fun w =>
    (Returns
       {| Unit.unitId := Unit.id (dna (props w));
          Unit.capabilities :=
            list_to_map
              [("get", Unit.KeyToValue get);
               ("has", Unit.KeyToBoolean has);
               ("getAll", Unit.Snapshot getAll);
               ("on", Unit.Subscribe on)];
          Unit.schema := Some teach_schema |},
     w).

Definition whoami : Eff Runtime string :=
  fun w =>
    let storageType :=
      match storage (props w) with Some _ => "persistent" | None => "memory" end in
    (Returns ("State[" +:+ ownerId (props w) +:+ "] - " +:+ storageType +:+ " - v"
              +:+ Unit.version (dna (props w))), w).

(** *** Calls made by the owner of the unit, one after the other *)

Inductive Call : Type :=
| CallGet (key : string)
| CallSet (key : string) (value : JsValue) (ttl : option Z)
| CallHas (key : string)
| CallDelete (key : string)
| CallClear
| CallGetAll
| CallOn (event : string) (handler : EventHandler)
| CallEmit (event : string) (data : JsValue)
| CallTeach.

(** The runtime after one call, whatever it returned or threw. *)
Definition after (c : Call) (w : Runtime) : Runtime :=
  match c with
  | CallGet key => snd (get key w)
  | CallSet key value ttl => snd (set key value ttl w)
  | CallHas key => snd (has key w)
  | CallDelete key => snd (delete key w)
  | CallClear => snd (clear w)
  | CallGetAll => snd (getAll w)
  | CallOn event handler => snd (on event handler w)
  | CallEmit event data => snd (emit event data w)
  | CallTeach => snd (teach w)
  end.

Definition after_all (cs : list Call) (w : Runtime) : Runtime :=
  foldl (fun w c => after c w) w cs.

End WithBackend.

Arguments StateAsyncProps S : clear implicits.
Arguments Runtime S : clear implicits.

End StateAsync.

(** ** The storage providers and units of [demo/test-enhanced-state.ts],
    and those of the scenarios examined below *)

Module Demo.

(** [if (x) ...]: the falsy values among those of the model. *)
Definition truthy (v : JsValue) : bool :=
  match v with
  | JsUndefined | JsNull | JsBoolean false | JsNumber 0 | JsString "" => false
  | _ => true
  end.

(** [class MockStorageAdapter]: a [Map] behind the five operations.  The
    timer that drops a key once its [ttl] has run out is left out. *)
Definition MockStorageAdapter : Binding.StorageBinding (gmap string JsValue) :=
  {| Binding.get := fun key storage =>
       let found := default JsUndefined (storage !! key) in
       (Resolved (if truthy found then found else JsNull), storage);
     Binding.set := fun key value ttl storage =>
       (Resolved tt, <[key := value]> storage);
     Binding.delete := fun key storage =>
       (Resolved (bool_decide (is_Some (storage !! key))), base.delete key storage);
     Binding.exists_ := Some (fun key storage =>
       (Resolved (bool_decide (is_Some (storage !! key))), storage));
     Binding.clear := Some (fun storage => (Resolved tt, ∅)) |}.

(** [class UnreliableStorage]: its state is [failureCount]. *)
Definition UnreliableStorage : Binding.StorageBinding nat :=
  {| Binding.get := fun key failureCount =>
       (if failureCount <? 2
        then Rejected "Storage temporarily unavailable"
        else Resolved JsNull,
        failureCount + 1);
     Binding.set := fun key value ttl failureCount =>
       (if bool_decide (key = "fail-key")
        then Rejected "Storage write failed"
        else Resolved tt,
        failureCount);
     Binding.delete := fun key failureCount =>
       (Rejected "Storage delete always fails", failureCount);
     Binding.exists_ := Some (fun key failureCount =>
       (Rejected "Storage exists always fails", failureCount));
     Binding.clear := Some (fun failureCount =>
       (Rejected "Storage clear always fails", failureCount)) |}.

(** A provider that accepts every write and rejects every read, with only
    the three required operations. *)
Definition WriteOnlyStorage : Binding.StorageBinding unit :=
  {| Binding.get := fun key s => (Rejected "Storage read failed", s);
     Binding.set := fun key value ttl s => (Resolved tt, s);
     Binding.delete := fun key s => (Resolved false, s);
     Binding.exists_ := None;
     Binding.clear := None |}.

(** A provider that is down: every operation rejects. *)
Definition DownStorage : Binding.StorageBinding unit :=
  {| Binding.get := fun key s => (Rejected "Storage unavailable", s);
     Binding.set := fun key value ttl s => (Rejected "Storage unavailable", s);
     Binding.delete := fun key s => (Rejected "Storage unavailable", s);
     Binding.exists_ := Some (fun key s => (Rejected "Storage unavailable", s));
     Binding.clear := Some (fun s => (Rejected "Storage unavailable", s)) |}.

(** A subscriber that only takes note of what it is called with. *)
Definition listener (id : nat) : EventHandler :=
  {| handler_id := id; handler_body := fun _ => None |}.

(** A subscriber that throws on every call. *)
Definition faulty_listener (id : nat) : EventHandler :=
  {| handler_id := id; handler_body := fun _ => Some "handler failed" |}.

(** A unit created with [lastError: null] in its initial state, as the
    network unit of the integration example is, over a provider. *)
Definition network {S} (binding : Binding.StorageBinding S) (s : S)
  : StateAsync.Runtime S :=
  StateAsync.boot
    (StateAsync.create
       {| Config.unitId := "network";
          Config.initialState := Some {[ "lastError" := JsNull ]};
          Config.emitEvents := None;
          Config.storage := Some binding |}) s.

(** The same unit without a provider. *)
Definition network_unbound {S} (s : S) : StateAsync.Runtime S :=
  StateAsync.boot
    (StateAsync.create
       {| Config.unitId := "network";
          Config.initialState := Some {[ "lastError" := JsNull ]};
          Config.emitEvents := None;
          Config.storage := None |}) s.

(** The unit of [testPersistentState]: change events on, writes stored. *)
Definition persistent_test : StateAsync.Runtime (gmap string JsValue) :=
  StateAsync.boot
    (StateAsync.create
       {| Config.unitId := "persistent-test";
          Config.initialState := None;
          Config.emitEvents := Some true;
          Config.storage := Some MockStorageAdapter |}) ∅.

(** The unit of [testGracefulDegradation]. *)
Definition degradation_test : StateAsync.Runtime nat :=
  StateAsync.boot
    (StateAsync.create
       {| Config.unitId := "degradation-test";
          Config.initialState := None;
          Config.emitEvents := None;
          Config.storage := Some UnreliableStorage |}) 0.

(** A unit over the provider whose reads always fail. *)
Definition write_only_test : StateAsync.Runtime unit :=
  StateAsync.boot
    (StateAsync.create
       {| Config.unitId := "write-only-test";
          Config.initialState := None;
          Config.emitEvents := None;
          Config.storage := Some WriteOnlyStorage |}) ().

(** A unit over the provider that is down. *)
Definition down_test : StateAsync.Runtime unit :=
  StateAsync.boot
    (StateAsync.create
       {| Config.unitId := "down-test";
          Config.initialState := None;
          Config.emitEvents := None;
          Config.storage := Some DownStorage |}) ().

(** A unit without a provider and with nothing in it. *)
Definition empty_test : StateAsync.Runtime unit :=
  StateAsync.boot
    (StateAsync.create
       {| Config.unitId := "empty-test";
          Config.initialState := None;
          Config.emitEvents := None;
          Config.storage := None |}) ().

(** [{ id: 123, name: 'Alice' }] *)
Definition alice : JsValue :=
  JsObject [("id", JsNumber 123); ("name", JsString "Alice")].

End Demo.

(** ** [src/index.ts]: the factories *)

Module Index.

(** [createState(unitId, initialState = {})] *)
Definition createState (unitId : string) (initialState : option (gmap string JsValue))
  : State.StateProps :=
  State.create
    {| State.unitId := unitId; State.initialState := default ∅ initialState |}.

(** [STATE.create(config)] *)
Definition STATE_create (config : State.StateConfig) : State.StateProps :=
  State.create config.

End Index.

(** ** [test/fixtures/functions.ts]: the state of a circuit breaker

    A string is taken as the list of its code units; the four [replace]
    calls are written out on that list. *)

Module Fixtures.

Fixpoint starts_with (pattern s : list Ascii.ascii) : bool :=
  match pattern, s with
  | [], _ => true
  | _ :: _, [] => false
  | p :: pattern', c :: s' => Ascii.eqb p c && starts_with pattern' s'
  end.

(** [.replace(/https?:\/\//, '')]: the leftmost match goes, once. *)
Fixpoint strip_scheme (s : list Ascii.ascii) : list Ascii.ascii :=
  match s with
  | [] => []
  | c :: rest =>
      if starts_with (String.list_ascii_of_string "https://") s then drop 8 s
      else if starts_with (String.list_ascii_of_string "http://") s then drop 7 s
      else c :: strip_scheme rest
  end.

(** [[a-zA-Z0-9]] *)
Definition alphanumeric (c : Ascii.ascii) : bool :=
  let n := Ascii.nat_of_ascii c in
  ((48 <=? n) && (n <=? 57)) || ((65 <=? n) && (n <=? 90))
  || ((97 <=? n) && (n <=? 122)).

Definition dash : Ascii.ascii := Ascii.ascii_of_nat 45.

(** [.replace(/[^a-zA-Z0-9]/g, '-')] *)
Definition dashify (s : list Ascii.ascii) : list Ascii.ascii :=
  map (fun c => if alphanumeric c then c else dash) s.

(** [.replace(/-+/g, '-')]: of a run of dashes only the last one stays. *)
Fixpoint collapse (s : list Ascii.ascii) : list Ascii.ascii :=
  match s with
  | [] => []
  | c :: rest =>
      if Ascii.eqb c dash
      then match rest with
           | d :: _ => if Ascii.eqb d dash then collapse rest else c :: collapse rest
           | [] => [c]
           end
      else c :: collapse rest
  end.

Definition drop_leading_dash (s : list Ascii.ascii) : list Ascii.ascii :=
  match s with
  | c :: rest => if Ascii.eqb c dash then rest else s
  | [] => []
  end.

Fixpoint drop_trailing_dash (s : list Ascii.ascii) : list Ascii.ascii :=
  match s with
  | [] => []
  | [c] => if Ascii.eqb c dash then [] else [c]
  | c :: rest => c :: drop_trailing_dash rest
  end.

(** [.replace(/^-|-$/g, '')] *)
Definition trim_dashes (s : list Ascii.ascii) : list Ascii.ascii :=
  drop_trailing_dash (drop_leading_dash s).

Definition sanitize (s : list Ascii.ascii) : list Ascii.ascii :=
  trim_dashes (collapse (dashify (strip_scheme s))).

(** [const safeId = `circuit-${...}`] *)
Definition safeId (url : string) : string :=
  "circuit-" +:+ String.string_of_list_ascii (sanitize (String.list_ascii_of_string url)).

(** [{ url, state: 'CLOSED', failures: 0, lastFailure: null }] *)
Definition circuit_defaults (url : string) : gmap string JsValue :=
  <["url" := JsString url]>
    (<["state" := JsString "CLOSED"]>
       (<["failures" := JsNumber 0]>
          (<["lastFailure" := JsNull]> ∅))).

(** The argument of [State.create] in [createCircuitState]: the spread of
    [initialState] comes last and wins. *)
Definition circuit_config (url : string)
    (initialState : option (gmap string JsValue)) : State.StateConfig :=
  {| State.unitId := safeId url;
     State.initialState := default ∅ initialState ∪ circuit_defaults url |}.

(** [createCircuitState(url, initialState = {})] *)
Definition createCircuitState (url : string)
    (initialState : option (gmap string JsValue)) : State.StateProps :=
  State.create (circuit_config url initialState).

(** The shape of the part of the id that follows ["circuit-"]. *)
Fixpoint no_double_dash (s : list Ascii.ascii) : bool :=
  match s with
  | c :: rest =>
      match rest with
      | d :: _ => negb (Ascii.eqb c dash && Ascii.eqb d dash) && no_double_dash rest
      | [] => true
      end
  | [] => true
  end.

Definition safe (c : Ascii.ascii) : bool := alphanumeric c || Ascii.eqb c dash.

Definition begins_with_dash (s : list Ascii.ascii) : bool :=
  match s with
  | c :: _ => Ascii.eqb c dash
  | [] => false
  end.

Definition ends_with_dash (s : list Ascii.ascii) : bool :=
  match last s with
  | Some c => Ascii.eqb c dash
  | None => false
  end.

(** Letters, digits and single dashes, with no dash at either end. *)
Definition well_formed (s : list Ascii.ascii) : bool :=
  forallb safe s && no_double_dash s
  && negb (begins_with_dash s) && negb (ends_with_dash s).

End Fixtures.

(** ** Calls on the synchronous unit, one after the other *)

Module StateRun.

Inductive Call : Type :=
| CallGet (key : string)
| CallSet (key : string) (value : JsValue)
| CallHas (key : string)
| CallGetAll
| CallOn (event : string) (handler : EventHandler)
| CallEmit (event : string) (data : JsValue)
| CallTeach
| CallWhoami.

(** The runtime after one call, whatever it returned or threw. *)
Definition after (c : Call) (v : State.Runtime) : State.Runtime :=
  match c with
  | CallGet key => snd (State.get key v)
  | CallSet key value => snd (State.set key value v)
  | CallHas key => snd (State.has key v)
  | CallGetAll => snd (State.getAll v)
  | CallOn event handler => snd (State.on event handler v)
  | CallEmit event data => snd (State.emit event data v)
  | CallTeach => snd (State.teach v)
  | CallWhoami => snd (State.whoami v)
  end.

Definition after_all (cs : list Call) (v : State.Runtime) : State.Runtime :=
  foldl (fun v c => after c v) v cs.

End StateRun.

(** * Derived notions, for the statements below *)

Definition warning {S} (w : StateAsync.Runtime S) (what : string) (key : string)
  : string :=
  "[" +:+ Unit.id (StateAsync.dna (StateAsync.props w))
  +:+ "] Storage " +:+ what +:+ " failed for key '" +:+ key +:+ "':".

(** The last statement of [set]: the change event, when events are on. *)
Definition notify {S} (key : string) (oldValue value : JsValue)
  : Eff (StateAsync.Runtime S) unit :=
  fun w =>
    if StateAsync.emitEvents (StateAsync.props w)
    then StateAsync.emit (key +:+ ".changed") (change_payload oldValue value) w
    else (Returns tt, w).

(** [this.props.storage?.exists] *)
Definition exists_capability {S} (w : StateAsync.Runtime S)
  : option (string -> S -> Settled bool * S) :=
  match StateAsync.storage (StateAsync.props w) with
  | Some binding => Binding.exists_ binding
  | None => None
  end.

(** What the delegated delete contributes to the result of [delete]:
    [storageDeleted] stays [false] unless the provider resolves to [true]. *)
Definition storageDeleted {S} (w : StateAsync.Runtime S) (key : string) : bool :=
  match StateAsync.storage (StateAsync.props w) with
  | Some binding =>
      match fst (Binding.delete binding key (StateAsync.backend w)) with
      | Resolved deleted => deleted
      | Rejected _ => false
      end
  | None => false
  end.

(** The same unit with no storage binding attached. *)
Definition memory_only {S} (w : StateAsync.Runtime S) : StateAsync.Runtime S :=
  {| StateAsync.props :=
       {| StateAsync.dna := StateAsync.dna (StateAsync.props w);
          StateAsync.ownerId := StateAsync.ownerId (StateAsync.props w);
          StateAsync.currentState := StateAsync.currentState (StateAsync.props w);
          StateAsync.eventHandlers := StateAsync.eventHandlers (StateAsync.props w);
          StateAsync.emitEvents := StateAsync.emitEvents (StateAsync.props w);
          StateAsync.storage := None |};
     StateAsync.backend := StateAsync.backend w;
     StateAsync.console := StateAsync.console w;
     StateAsync.calls := StateAsync.calls w |}.

(** The promise was rejected: the provider threw. *)
Definition thrown {S A} (settled : Settled A * S) : Prop :=
  exists message, fst settled = Rejected message.

(** What a unit is wired with at creation: everything but memory and
    subscriptions. *)
Definition same_wiring {S} (p q : StateAsync.StateAsyncProps S) : Prop :=
  StateAsync.dna p = StateAsync.dna q
  /\ StateAsync.ownerId p = StateAsync.ownerId q
  /\ StateAsync.emitEvents p = StateAsync.emitEvents q
  /\ StateAsync.storage p = StateAsync.storage q.

(** The calls [handler(data)], one per handler, in the order of the list. *)
Definition calls_to (handlers : list EventHandler) (data : JsValue) : list Invocation :=
  map (fun handler => (handler_id handler, data)) handlers.



(** What the assignment to the frozen [props.currentState] throws. *)
Definition frozen_currentState : Thrown :=
  TypeError "Cannot assign to read only property 'currentState' of object '#<Object>'".

(** [key] names a property that an object with the prototype of [obj]
    inherits. *)
Definition inherits (obj : PlainObject) (key : string) : bool :=
  bool_decide (is_Some (inherited (prototype obj) key)).

(** * Properties *)

(** ** Plain objects *)

Lemma inherited_accessor (p : Prototype) key :
  inherited p key = Some ProtoAccessor -> key = "__proto__".
Proof.
  unfold inherited, object_prototype_member.
  destruct p as [|name|fields]; [done| |destruct (field fields key); [done|]];
    case_bool_decide; try done;
    by destruct (field object_prototype_functions key).
Qed.

Lemma write_property_own (obj : PlainObject) key value :
  key <> "__proto__" ->
  write_property obj key value
  = {| own := <[key := value]> (own obj); prototype := prototype obj |}.
Proof.
  intros Hkey. unfold write_property.
  destruct (own obj !! key); [done|].
  destruct (inherited (prototype obj) key) as [[|]|] eqn:Hinherited; try done.
  by apply inherited_accessor in Hinherited.
Qed.

Lemma read_write_same (obj : PlainObject) key value :
  key <> "__proto__" -> read_property (write_property obj key value) key = value.
Proof.
  intros Hkey. rewrite (write_property_own _ _ _ Hkey).
  unfold read_property. simpl. by rewrite lookup_insert_eq.
Qed.

Lemma read_write_other (obj : PlainObject) key other value :
  key <> "__proto__" -> other <> key ->
  read_property (write_property obj key value) other = read_property obj other.
Proof.
  intros Hkey Hother. rewrite (write_property_own _ _ _ Hkey).
  unfold read_property. simpl. by rewrite lookup_insert_ne.
Qed.

Lemma has_write_same (obj : PlainObject) key value :
  key <> "__proto__" -> has_property (write_property obj key value) key = true.
Proof.
  intros Hkey. rewrite (write_property_own _ _ _ Hkey).
  unfold has_property. simpl. rewrite lookup_insert_eq.
  by rewrite bool_decide_true by eauto.
Qed.

Lemma has_write_other (obj : PlainObject) key other value :
  key <> "__proto__" -> other <> key ->
  has_property (write_property obj key value) other = has_property obj other.
Proof.
  intros Hkey Hother. rewrite (write_property_own _ _ _ Hkey).
  unfold has_property. simpl. by rewrite lookup_insert_ne.
Qed.

Lemma has_property_inherits (obj : PlainObject) key :
  has_property obj key = bool_decide (is_Some (own obj !! key)) || inherits obj key.
Proof. reflexivity. Qed.

Lemma has_delete_same (obj : PlainObject) key :
  has_property (delete_property obj key) key = inherits obj key.
Proof.
  unfold has_property, delete_property, inherits. simpl.
  rewrite lookup_delete_eq. by rewrite bool_decide_false by (intros [? ?]; done).
Qed.

Lemma read_own (obj : PlainObject) key value :
  obj !! key = Some value -> read_property obj key = value.
Proof.
  intros Hown. change (own obj !! key = Some value) in Hown.
  unfold read_property. by rewrite Hown.
Qed.

(** ** Event dispatch *)

Lemma invoke_all_quiet (handlers : list EventHandler) data calls :
  Forall (fun handler => handler_body handler data = None) handlers ->
  invoke_all handlers data calls
  = (Returns tt, calls ++ map (fun handler => (handler_id handler, data)) handlers).
Proof.
  intros Hquiet. revert calls.
  induction Hquiet as [|handler rest Hbody _ IH]; intros calls; simpl.
  - by rewrite app_nil_r.
  - rewrite Hbody, IH, <- app_assoc. reflexivity.
Qed.

Lemma invoke_all_throws (handlers : list EventHandler) data calls t :
  fst (invoke_all handlers data calls) = Throws t ->
  exists handler,
    handler ∈ handlers /\ handler_body handler data <> None
    /\ exists message, t = HandlerFailure message.
Proof.
  revert calls. induction handlers as [|handler rest IH]; intros calls; simpl.
  - discriminate.
  - destruct (handler_body handler data) as [message|] eqn:Hbody; simpl.
    + intros [= <-]. exists handler. split; [left|]. split; [congruence|eauto].
    + intros Hrest. destruct (IH _ Hrest) as (h & Hin & Hh).
      exists h. split; [by right|done].
Qed.

Lemma invoke_all_extends (handlers : list EventHandler) data calls :
  exists added, snd (invoke_all handlers data calls) = calls ++ added.
Proof.
  revert calls. induction handlers as [|handler rest IH]; intros calls; simpl.
  - exists []. by rewrite app_nil_r.
  - destruct (handler_body handler data); simpl.
    + eauto.
    + destruct (IH (calls ++ [(handler_id handler, data)])) as [added ->].
      exists ((handler_id handler, data) :: added). by rewrite <- app_assoc.
Qed.

Lemma handlers_of_register_same eventHandlers event handler :
  handlers_of (register eventHandlers event handler) event
  = handlers_of eventHandlers event ++ [handler].
Proof.
  unfold handlers_of, register.
  destruct (eventHandlers !! event) as [handlers|] eqn:Hlookup.
  - rewrite bool_decide_true by eauto. rewrite Hlookup.
    by rewrite lookup_insert_eq.
  - rewrite bool_decide_false by (intros [? ?]; congruence).
    rewrite lookup_insert_eq. by rewrite lookup_insert_eq.
Qed.

Lemma handlers_of_register_other eventHandlers event handler other :
  event <> other ->
  handlers_of (register eventHandlers event handler) other
  = handlers_of eventHandlers other.
Proof.
  intros Hne. unfold handlers_of, register.
  destruct (eventHandlers !! event) as [handlers|] eqn:Hlookup.
  - rewrite bool_decide_true by eauto. rewrite Hlookup.
    by rewrite lookup_insert_ne.
  - rewrite bool_decide_false by (intros [? ?]; congruence).
    rewrite lookup_insert_eq. by rewrite !lookup_insert_ne.
Qed.

(** ** [StateAsync.set], branch by branch *)

Ltac step_eff :=
  unfold StateAsync.get, StateAsync.set, StateAsync.has, StateAsync.delete,
    StateAsync.clear, StateAsync.await, StateAsync.console_warn,
    StateAsync.assign, StateAsync.assign_frozen, StateAsync.this_props, notify,
    bind, try_catch, ret;
  simpl.

Lemma set_unbound {S} (w : StateAsync.Runtime S) key value ttl :
  StateAsync.storage (StateAsync.props w) = None ->
  StateAsync.set key value ttl w
  = notify key (read_property (StateAsync.currentState (StateAsync.props w)) key) value
      (StateAsync.with_currentState
         (write_property (StateAsync.currentState (StateAsync.props w)) key value) w).
Proof.
  intros Hstorage. step_eff. rewrite Hstorage. simpl.
  by destruct (StateAsync.emitEvents (StateAsync.props w)).
Qed.

Lemma set_resolved {S} (w : StateAsync.Runtime S) binding key value ttl s' :
  StateAsync.storage (StateAsync.props w) = Some binding ->
  Binding.set binding key value ttl (StateAsync.backend w) = (Resolved tt, s') ->
  StateAsync.set key value ttl w
  = notify key (read_property (StateAsync.currentState (StateAsync.props w)) key) value
      (StateAsync.with_backend s' w).
Proof.
  intros Hstorage Hset. step_eff. rewrite Hstorage, Hset. simpl.
  by destruct (StateAsync.emitEvents (StateAsync.props w)).
Qed.

Lemma set_rejected {S} (w : StateAsync.Runtime S) binding key value ttl message s' :
  StateAsync.storage (StateAsync.props w) = Some binding ->
  Binding.set binding key value ttl (StateAsync.backend w) = (Rejected message, s') ->
  StateAsync.set key value ttl w
  = notify key (read_property (StateAsync.currentState (StateAsync.props w)) key) value
      (StateAsync.with_currentState
         (write_property (StateAsync.currentState (StateAsync.props w)) key value)
         (StateAsync.with_console
            (StateAsync.console w ++ [(warning w "set" key, StorageFailure message)])
            (StateAsync.with_backend s' w))).
Proof.
  intros Hstorage Hset. step_eff. rewrite Hstorage, Hset. simpl.
  by destruct (StateAsync.emitEvents (StateAsync.props w)).
Qed.

Lemma notify_props {S} (w : StateAsync.Runtime S) key oldValue value :
  StateAsync.props (snd (notify key oldValue value w)) = StateAsync.props w.
Proof.
  unfold notify, StateAsync.emit.
  destruct (StateAsync.emitEvents _); [|done].
  by destruct (invoke_all _ _ _).
Qed.


Lemma notify_no_storage_failure {S} (w : StateAsync.Runtime S) key oldValue value message :
  fst (notify key oldValue value w) <> Throws (StorageFailure message).
Proof.
  unfold notify, StateAsync.emit.
  destruct (StateAsync.emitEvents _); [|done].
  intros Hthrow.
  destruct (invoke_all _ _ _) as [outcome calls'] eqn:Hrun. simpl in Hthrow.
  pose proof (invoke_all_throws _ _ _ (StorageFailure message)
                ltac:(rewrite Hrun; exact Hthrow)) as (_ & _ & _ & ? & ?).
  discriminate.
Qed.

Lemma notify_returns {S} (w : StateAsync.Runtime S) key oldValue value :
  StateAsync.emitEvents (StateAsync.props w) = false
  \/ quiet (StateAsync.eventHandlers (StateAsync.props w)) (key +:+ ".changed")
           (change_payload oldValue value) ->
  fst (notify key oldValue value w) = Returns tt.
Proof.
  unfold notify, StateAsync.emit, quiet.
  intros [-> | Hquiet]; [done|].
  destruct (StateAsync.emitEvents _); [|done].
  by rewrite (invoke_all_quiet _ _ _ Hquiet).
Qed.

(** ** [get], [has], [delete] and [clear], branch by branch *)

Lemma get_unbound {S} (w : StateAsync.Runtime S) key :
  StateAsync.storage (StateAsync.props w) = None ->
  StateAsync.get key w
  = (Returns (read_property (StateAsync.currentState (StateAsync.props w)) key), w).
Proof. intros Hstorage. step_eff. by rewrite Hstorage. Qed.

Lemma get_resolved {S} (w : StateAsync.Runtime S) binding key value s' :
  StateAsync.storage (StateAsync.props w) = Some binding ->
  Binding.get binding key (StateAsync.backend w) = (Resolved value, s') ->
  StateAsync.get key w
  = (Returns (nullish_coalesce value JsUndefined), StateAsync.with_backend s' w).
Proof. intros Hstorage Hget. step_eff. by rewrite Hstorage, Hget. Qed.

Lemma get_rejected {S} (w : StateAsync.Runtime S) binding key message s' :
  StateAsync.storage (StateAsync.props w) = Some binding ->
  Binding.get binding key (StateAsync.backend w) = (Rejected message, s') ->
  StateAsync.get key w
  = (Returns (read_property (StateAsync.currentState (StateAsync.props w)) key),
     StateAsync.with_console
       (StateAsync.console w ++ [(warning w "get" key, StorageFailure message)])
       (StateAsync.with_backend s' w)).
Proof. intros Hstorage Hget. step_eff. by rewrite Hstorage, Hget. Qed.

Lemma has_without_exists {S} (w : StateAsync.Runtime S) key :
  exists_capability w = None ->
  StateAsync.has key w
  = (Returns (has_property (StateAsync.currentState (StateAsync.props w)) key), w).
Proof.
  unfold exists_capability. intros Hcap. step_eff. by rewrite Hcap.
Qed.

Lemma has_resolved {S} (w : StateAsync.Runtime S) exists_ key found s' :
  exists_capability w = Some exists_ ->
  exists_ key (StateAsync.backend w) = (Resolved found, s') ->
  StateAsync.has key w = (Returns found, StateAsync.with_backend s' w).
Proof.
  unfold exists_capability. intros Hcap Hcall. step_eff. by rewrite Hcap, Hcall.
Qed.

Lemma has_rejected {S} (w : StateAsync.Runtime S) exists_ key message s' :
  exists_capability w = Some exists_ ->
  exists_ key (StateAsync.backend w) = (Rejected message, s') ->
  StateAsync.has key w
  = (Returns (has_property (StateAsync.currentState (StateAsync.props w)) key),
     StateAsync.with_console
       (StateAsync.console w ++ [(warning w "exists" key, StorageFailure message)])
       (StateAsync.with_backend s' w)).
Proof.
  unfold exists_capability. intros Hcap Hcall. step_eff. by rewrite Hcap, Hcall.
Qed.

Lemma delete_result {S} (w : StateAsync.Runtime S) key :
  fst (StateAsync.delete key w)
  = Returns (storageDeleted w key
             || has_property (StateAsync.currentState (StateAsync.props w)) key).
Proof.
  unfold storageDeleted. step_eff.
  destruct (StateAsync.storage (StateAsync.props w)) as [binding|]; [|done].
  by destruct (Binding.delete binding key (StateAsync.backend w)) as [[deleted|message] s'].
Qed.

Lemma delete_memory {S} (w : StateAsync.Runtime S) key :
  StateAsync.currentState (StateAsync.props (snd (StateAsync.delete key w)))
  = delete_property (StateAsync.currentState (StateAsync.props w)) key.
Proof.
  step_eff.
  destruct (StateAsync.storage (StateAsync.props w)) as [binding|]; [|done].
  by destruct (Binding.delete binding key (StateAsync.backend w)) as [[deleted|message] s'].
Qed.

Lemma clear_throws {S} (w : StateAsync.Runtime S) :
  fst (StateAsync.clear w) = Throws frozen_currentState.
Proof.
  step_eff.
  destruct (StateAsync.storage (StateAsync.props w)) as [binding|]; [|done].
  destruct (Binding.clear binding) as [clear_|]; [|done].
  by destruct (clear_ (StateAsync.backend w)) as [[[]|message] s'].
Qed.

Lemma clear_props {S} (w : StateAsync.Runtime S) :
  StateAsync.props (snd (StateAsync.clear w)) = StateAsync.props w
  /\ StateAsync.calls (snd (StateAsync.clear w)) = StateAsync.calls w.
Proof.
  step_eff.
  destruct (StateAsync.storage (StateAsync.props w)) as [binding|]; [|done].
  destruct (Binding.clear binding) as [clear_|]; [|done].
  by destruct (clear_ (StateAsync.backend w)) as [[[]|message] s'].
Qed.

Lemma get_returns {S} (w : StateAsync.Runtime S) key :
  exists value, fst (StateAsync.get key w) = Returns value.
Proof.
  destruct (StateAsync.storage (StateAsync.props w)) as [binding|] eqn:Hstorage.
  - destruct (Binding.get binding key (StateAsync.backend w))
      as [[value|message] s'] eqn:Hget.
    + rewrite (get_resolved _ _ _ _ _ Hstorage Hget). eauto.
    + rewrite (get_rejected _ _ _ _ _ Hstorage Hget). eauto.
  - rewrite (get_unbound _ _ Hstorage). eauto.
Qed.

Lemma get_memory {S} (w : StateAsync.Runtime S) key :
  StateAsync.props (snd (StateAsync.get key w)) = StateAsync.props w.
Proof.
  destruct (StateAsync.storage (StateAsync.props w)) as [binding|] eqn:Hstorage.
  - destruct (Binding.get binding key (StateAsync.backend w))
      as [[value|message] s'] eqn:Hget.
    + by rewrite (get_resolved _ _ _ _ _ Hstorage Hget).
    + by rewrite (get_rejected _ _ _ _ _ Hstorage Hget).
  - by rewrite (get_unbound _ _ Hstorage).
Qed.

Lemma has_returns {S} (w : StateAsync.Runtime S) key :
  exists found, fst (StateAsync.has key w) = Returns found.
Proof.
  destruct (exists_capability w) as [exists_|] eqn:Hcap.
  - destruct (exists_ key (StateAsync.backend w)) as [[found|message] s'] eqn:Hcall.
    + rewrite (has_resolved _ _ _ _ _ Hcap Hcall). eauto.
    + rewrite (has_rejected _ _ _ _ _ Hcap Hcall). eauto.
  - rewrite (has_without_exists _ _ Hcap). eauto.
Qed.

Lemma has_memory {S} (w : StateAsync.Runtime S) key :
  StateAsync.props (snd (StateAsync.has key w)) = StateAsync.props w.
Proof.
  destruct (exists_capability w) as [exists_|] eqn:Hcap.
  - destruct (exists_ key (StateAsync.backend w)) as [[found|message] s'] eqn:Hcall.
    + by rewrite (has_resolved _ _ _ _ _ Hcap Hcall).
    + by rewrite (has_rejected _ _ _ _ _ Hcap Hcall).
  - by rewrite (has_without_exists _ _ Hcap).
Qed.

(** ** Graceful degradation of [set] *)

(** C3, as stated.  The claim is made of every key and without a word on
    subscribers; it fails on both counts.  On a fresh unit whose provider is
    down, [set("__proto__", 7)] ends in the setter that [Object.prototype]
    gives every object: nothing is written, and the following [get], the
    provider's [get] throwing as well, returns [Object.prototype].  And where
    a subscriber of the change event throws, [set] throws what it threw. *)
Lemma set_does_not_fall_back_for_the_proto_key :
  let w := Demo.down_test in
  let w' := snd (StateAsync.set "__proto__" (JsNumber 7) None w) in
  let subscribed :=
    snd (StateAsync.on "fail-key.changed" (Demo.faulty_listener 1)
           (StateAsync.boot
              (StateAsync.create
                 {| Config.unitId := "degradation-test";
                    Config.initialState := None;
                    Config.emitEvents := Some true;
                    Config.storage := Some Demo.UnreliableStorage |}) 0)) in
  (thrown (Binding.set Demo.DownStorage "__proto__" (JsNumber 7) None
             (StateAsync.backend w))
   /\ thrown (Binding.get Demo.DownStorage "__proto__" (StateAsync.backend w'))
   /\ StateAsync.currentState (StateAsync.props w') !! "__proto__" = None
   /\ fst (StateAsync.get "__proto__" w') = Returns (JsBuiltin "Object.prototype")
   /\ fst (StateAsync.get "__proto__" w') <> Returns (JsNumber 7))
  /\ (thrown (Binding.set Demo.UnreliableStorage "fail-key" JsNull None
                (StateAsync.backend subscribed))
      /\ fst (StateAsync.set "fail-key" JsNull None subscribed)
         = Throws (HandlerFailure "handler failed")).
Proof.
  split.
  - split; [by eexists|]. split; [by eexists|]. vm_compute.
    split; [done|]. split; [done|congruence].
  - split; [by eexists|]. by vm_compute.
Qed.

(** C3, as amended.  For every key other than ["__proto__"], on a unit
    whose memory object has the prototype of an object literal (or [null],
    or a plain data object): when the storage binding's [set] throws for
    the key, [set(key, value)] lets no storage error out, returns unless a
    subscriber of the change event throws, and writes [value] into the
    in-memory mapping as an own property; a following [get(key)] for which
    the binding's [get] throws as well returns [value], read from memory.
    Subscribers are observers here, as everywhere: they are called and
    return or throw. *)
Theorem set_falls_back_to_memory {S} (w : StateAsync.Runtime S)
    binding key value ttl message s' :
  StateAsync.storage (StateAsync.props w) = Some binding ->
  Binding.set binding key value ttl (StateAsync.backend w) = (Rejected message, s') ->
  key <> "__proto__" ->
  modelled (prototype (StateAsync.currentState (StateAsync.props w))) = true ->
  let oldValue := read_property (StateAsync.currentState (StateAsync.props w)) key in
  let w' := snd (StateAsync.set key value ttl w) in
  (forall any, fst (StateAsync.set key value ttl w) <> Throws (StorageFailure any))
  /\ (StateAsync.emitEvents (StateAsync.props w) = false
      \/ quiet (StateAsync.eventHandlers (StateAsync.props w)) (key +:+ ".changed")
               (change_payload oldValue value) ->
      fst (StateAsync.set key value ttl w) = Returns tt)
  /\ StateAsync.currentState (StateAsync.props w') !! key = Some value
  /\ (forall message' s'',
        Binding.get binding key (StateAsync.backend w') = (Rejected message', s'') ->
        fst (StateAsync.get key w') = Returns value).
Proof.
  intros Hstorage Hset Hkey _ oldValue w'. subst oldValue w'.
  rewrite (set_rejected _ _ _ _ _ _ _ Hstorage Hset).
  split; [intros any; apply notify_no_storage_failure|].
  split; [intros Hquiet; by apply notify_returns|].
  set (w' := snd (notify _ _ _ _)).
  assert (Hprops : StateAsync.props w'
                   = StateAsync.props
                       (StateAsync.with_currentState
                          (write_property
                             (StateAsync.currentState (StateAsync.props w)) key value)
                          w))
    by (subst w'; by rewrite notify_props).
  assert (Hmemory : StateAsync.currentState (StateAsync.props w') !! key = Some value).
  { rewrite Hprops. simpl. rewrite (write_property_own _ _ _ Hkey).
    apply lookup_insert_eq. }
  split; [exact Hmemory|].
  intros message' s'' Hget.
  erewrite get_rejected; [| |exact Hget].
  - cbn [fst]. by rewrite (read_own _ _ _ Hmemory).
  - rewrite Hprops. exact Hstorage.
Qed.

Lemma set_falls_back_to_memory_witness :
  let w := Demo.degradation_test in
  let value := JsString "this will fail in storage" in
  StateAsync.currentState
    (StateAsync.props (snd (StateAsync.set "fail-key" value None w))) !! "fail-key"
  = Some value
  /\ fst (StateAsync.get "fail-key" (snd (StateAsync.set "fail-key" value None w)))
     = Returns value.
Proof.
  intros w value.
  destruct (set_falls_back_to_memory w Demo.UnreliableStorage "fail-key" value None
              "Storage write failed" 0 eq_refl eq_refl)
    as (_ & _ & Hmemory & Hget); [done|reflexivity|].
  split; [exact Hmemory|].
  exact (Hget "Storage temporarily unavailable" 1 eq_refl).
Defined.

(** ** Reads through the storage binding *)

(** C4.  With a storage binding attached whose [get(key)] resolves, [get(key)]
    returns what storage resolved to ([null], "not found", read as absent) and
    the in-memory mapping has no part in it: two units that differ only in
    memory get the same answer, and a "not found" from storage is answered by
    [undefined] even when the key is in memory. *)
Theorem get_storage_is_authoritative {S} (w : StateAsync.Runtime S)
    binding key value s' :
  StateAsync.storage (StateAsync.props w) = Some binding ->
  Binding.get binding key (StateAsync.backend w) = (Resolved value, s') ->
  fst (StateAsync.get key w) = Returns (nullish_coalesce value JsUndefined)
  /\ (value <> JsNull -> fst (StateAsync.get key w) = Returns value)
  /\ (value = JsNull -> fst (StateAsync.get key w) = Returns JsUndefined)
  /\ (forall memory,
        fst (StateAsync.get key (StateAsync.with_currentState memory w))
        = fst (StateAsync.get key w))
  /\ StateAsync.props (snd (StateAsync.get key w)) = StateAsync.props w.
Proof.
  intros Hstorage Hget.
  rewrite (get_resolved _ _ _ _ _ Hstorage Hget). simpl.
  split; [done|].
  split; [by destruct value|].
  split; [by intros ->|].
  split; [|done].
  intros memory.
  by rewrite (get_resolved (StateAsync.with_currentState memory w) binding key value s').
Qed.

Lemma get_storage_is_authoritative_witness :
  let w := StateAsync.boot
             (StateAsync.create
                {| Config.unitId := "persistent-test";
                   Config.initialState := Some {[ "user" := JsString "Alice" ]};
                   Config.emitEvents := Some true;
                   Config.storage := Some Demo.MockStorageAdapter |}) ∅ in
  StateAsync.currentState (StateAsync.props w) !! "user" = Some (JsString "Alice")
  /\ fst (StateAsync.get "user" w) = Returns JsUndefined.
Proof.
  intros w. split; [reflexivity|].
  destruct (get_storage_is_authoritative w Demo.MockStorageAdapter "user" JsNull ∅
              eq_refl eq_refl) as (_ & _ & Hnull & _).
  exact (Hnull eq_refl).
Defined.

(** C9.  On the storage path a [null] resolved by the binding's [get(key)] is
    returned as [undefined]; on the memory-only path a stored [null] is
    returned as it is. *)
Theorem get_null_from_storage_is_undefined {S} (w : StateAsync.Runtime S)
    binding key s' :
  StateAsync.storage (StateAsync.props w) = Some binding ->
  Binding.get binding key (StateAsync.backend w) = (Resolved JsNull, s') ->
  fst (StateAsync.get key w) = Returns JsUndefined
  /\ (forall unbound : StateAsync.Runtime S,
        StateAsync.storage (StateAsync.props unbound) = None ->
        StateAsync.currentState (StateAsync.props unbound) !! key = Some JsNull ->
        fst (StateAsync.get key unbound) = Returns JsNull).
Proof.
  intros Hstorage Hget. split.
  - by rewrite (get_resolved _ _ _ _ _ Hstorage Hget).
  - intros unbound Hnone Hnull.
    rewrite (get_unbound _ _ Hnone). simpl. by rewrite (read_own _ _ _ Hnull).
Qed.

Lemma get_null_from_storage_is_undefined_witness :
  fst (StateAsync.get "lastError" (Demo.network Demo.MockStorageAdapter ∅))
  = Returns JsUndefined
  /\ fst (StateAsync.get "lastError"
            (Demo.network_unbound (∅ : gmap string JsValue)))
     = Returns JsNull.
Proof.
  edestruct (get_null_from_storage_is_undefined
               (Demo.network Demo.MockStorageAdapter ∅) Demo.MockStorageAdapter
               "lastError")
    as [Hstorage Hmemory]; [reflexivity|reflexivity|].
  split; [exact Hstorage|].
  apply Hmemory; reflexivity.
Defined.

(** ** [delete] *)




(** ** No storage error reaches the caller *)

Lemma set_is_notify {S} (w : StateAsync.Runtime S) key value ttl :
  exists w1,
    StateAsync.set key value ttl w
    = notify key (read_property (StateAsync.currentState (StateAsync.props w)) key)
        value w1
    /\ StateAsync.emitEvents (StateAsync.props w1)
       = StateAsync.emitEvents (StateAsync.props w)
    /\ StateAsync.eventHandlers (StateAsync.props w1)
       = StateAsync.eventHandlers (StateAsync.props w)
    /\ StateAsync.storage (StateAsync.props w1) = StateAsync.storage (StateAsync.props w)
    /\ StateAsync.calls w1 = StateAsync.calls w.
Proof.
  destruct (StateAsync.storage (StateAsync.props w)) as [binding|] eqn:Hstorage.
  - destruct (Binding.set binding key value ttl (StateAsync.backend w))
      as [[[]|message] s'] eqn:Hset.
    + eexists. split; [by apply (set_resolved _ binding _ _ _ s')|done].
    + eexists. split; [by apply (set_rejected _ binding _ _ _ message s')|done].
  - eexists. split; [by apply set_unbound|done].
Qed.

Lemma notify_agrees {S} (w1 w2 : StateAsync.Runtime S) key oldValue value :
  StateAsync.emitEvents (StateAsync.props w1) = StateAsync.emitEvents (StateAsync.props w2) ->
  StateAsync.eventHandlers (StateAsync.props w1)
  = StateAsync.eventHandlers (StateAsync.props w2) ->
  StateAsync.calls w1 = StateAsync.calls w2 ->
  fst (notify key oldValue value w1) = fst (notify key oldValue value w2)
  /\ StateAsync.calls (snd (notify key oldValue value w1))
     = StateAsync.calls (snd (notify key oldValue value w2)).
Proof.
  unfold notify, StateAsync.emit. intros Hemit Hhandlers Hcalls.
  rewrite Hemit, Hhandlers, Hcalls.
  destruct (StateAsync.emitEvents (StateAsync.props w2)); [|done].
  by destruct (invoke_all _ _ _).
Qed.

Lemma set_no_storage_failure {S} (w : StateAsync.Runtime S) key value ttl message :
  fst (StateAsync.set key value ttl w) <> Throws (StorageFailure message).
Proof.
  destruct (set_is_notify w key value ttl) as (w1 & -> & _).
  apply notify_no_storage_failure.
Qed.


Lemma set_degrades {S} (w : StateAsync.Runtime S) binding key value ttl :
  StateAsync.storage (StateAsync.props w) = Some binding ->
  thrown (Binding.set binding key value ttl (StateAsync.backend w)) ->
  fst (StateAsync.set key value ttl w)
  = fst (StateAsync.set key value ttl (memory_only w))
  /\ StateAsync.currentState (StateAsync.props (snd (StateAsync.set key value ttl w)))
     = StateAsync.currentState
         (StateAsync.props (snd (StateAsync.set key value ttl (memory_only w))))
  /\ StateAsync.calls (snd (StateAsync.set key value ttl w))
     = StateAsync.calls (snd (StateAsync.set key value ttl (memory_only w))).
Proof.
  intros Hstorage [message Hset].
  destruct (Binding.set binding key value ttl (StateAsync.backend w))
    as [settled s'] eqn:Hcall.
  simpl in Hset. subst settled.
  rewrite (set_rejected _ _ _ _ _ _ _ Hstorage Hcall).
  rewrite (set_unbound (memory_only w)) by done.
  rewrite !notify_props. simpl.
  split; [by apply notify_agrees|].
  split; [done|by apply notify_agrees].
Qed.

Lemma get_degrades {S} (w : StateAsync.Runtime S) binding key :
  StateAsync.storage (StateAsync.props w) = Some binding ->
  thrown (Binding.get binding key (StateAsync.backend w)) ->
  fst (StateAsync.get key w) = fst (StateAsync.get key (memory_only w)).
Proof.
  intros Hstorage [message Hget].
  destruct (Binding.get binding key (StateAsync.backend w))
    as [settled s'] eqn:Hcall.
  simpl in Hget. subst settled.
  rewrite (get_rejected _ _ _ _ _ Hstorage Hcall).
  by rewrite (get_unbound (memory_only w)).
Qed.

Lemma has_degrades {S} (w : StateAsync.Runtime S) key :
  exists_capability w = None
  \/ (exists exists_,
        exists_capability w = Some exists_
        /\ thrown (exists_ key (StateAsync.backend w))) ->
  fst (StateAsync.has key w) = fst (StateAsync.has key (memory_only w)).
Proof.
  rewrite (has_without_exists (memory_only w)) by done.
  intros [Hcap | (exists_ & Hcap & message & Hcall)].
  - by rewrite (has_without_exists _ _ Hcap).
  - destruct (exists_ key (StateAsync.backend w)) as [settled s'] eqn:Hrun.
    simpl in Hcall. subst settled.
    by rewrite (has_rejected _ _ _ _ _ Hcap Hrun).
Qed.

Lemma delete_degrades {S} (w : StateAsync.Runtime S) binding key :
  StateAsync.storage (StateAsync.props w) = Some binding ->
  thrown (Binding.delete binding key (StateAsync.backend w)) ->
  fst (StateAsync.delete key w) = fst (StateAsync.delete key (memory_only w))
  /\ StateAsync.currentState (StateAsync.props (snd (StateAsync.delete key w)))
     = StateAsync.currentState
         (StateAsync.props (snd (StateAsync.delete key (memory_only w)))).
Proof.
  intros Hstorage [message Hcall].
  rewrite !delete_result, !delete_memory. split; [|done].
  unfold storageDeleted. rewrite Hstorage, Hcall. reflexivity.
Qed.

(** C6.  [clear()] does not return.  On the unit of the degradation demo,
    with [fail-key] held in memory and a provider whose [clear] throws, the
    provider's failure is caught and reported as it should be; then the
    assignment of a new object to the frozen props throws, the [TypeError]
    reaches the caller, and memory is what it was.  The same on a unit
    without a binding.  (Of [get], [set], [has] and [delete] no storage
    error reaches the caller: [get_returns], [has_returns], [delete_result],
    [set_no_storage_failure].) *)
Theorem clear_throws_and_clears_nothing :
  let w :=
    snd (StateAsync.set "fail-key" (JsString "kept") None Demo.degradation_test) in
  fst (StateAsync.clear w) = Throws frozen_currentState
  /\ StateAsync.console (snd (StateAsync.clear w))
     = StateAsync.console w
       ++ [("[state-degradation-test] Storage clear failed:",
            StorageFailure "Storage clear always fails")]
  /\ StateAsync.currentState (StateAsync.props (snd (StateAsync.clear w))) !! "fail-key"
     = Some (JsString "kept")
  /\ fst (StateAsync.clear Demo.empty_test) = Throws frozen_currentState.
Proof. by vm_compute. Qed.

(** ** The memory mirror after a write that storage accepted *)

Lemma set_resolved_memory {S} (w : StateAsync.Runtime S) binding key value ttl s' :
  StateAsync.storage (StateAsync.props w) = Some binding ->
  Binding.set binding key value ttl (StateAsync.backend w) = (Resolved tt, s') ->
  StateAsync.currentState (StateAsync.props (snd (StateAsync.set key value ttl w)))
  = StateAsync.currentState (StateAsync.props w).
Proof.
  intros Hstorage Hset.
  rewrite (set_resolved _ _ _ _ _ _ Hstorage Hset).
  by rewrite notify_props.
Qed.

(** C1.  The unit of the persistent-state demo stores [user] through its
    binding: the write is accepted and the provider holds the value, yet the
    in-memory mapping has no [user] afterwards.  (That a failing [get] of the
    binding leaves the in-memory mapping as it was is [get_memory].) *)
Theorem set_accepted_by_storage_leaves_memory_stale :
  let w' := snd (StateAsync.set "user" Demo.alice None Demo.persistent_test) in
  fst (StateAsync.set "user" Demo.alice None Demo.persistent_test) = Returns tt
  /\ StateAsync.backend w' !! "user" = Some Demo.alice
  /\ StateAsync.currentState (StateAsync.props w') !! "user" = None
  /\ StateAsync.currentState (StateAsync.props w') !! "user" <> Some Demo.alice.
Proof. vm_compute. repeat split; congruence. Qed.

(** C2.  Over a binding whose [get] always throws and whose [set] succeeds,
    [set("x", 1)] returns and the following [get("x")] returns too, falling
    back to memory: but memory was not written, and the answer is
    [undefined], not [1]. *)
Theorem get_after_accepted_set_is_undefined :
  let w' := snd (StateAsync.set "x" (JsNumber 1) None Demo.write_only_test) in
  fst (StateAsync.set "x" (JsNumber 1) None Demo.write_only_test) = Returns tt
  /\ fst (StateAsync.get "x" w') = Returns JsUndefined
  /\ fst (StateAsync.get "x" w') <> Returns (JsNumber 1).
Proof. vm_compute. repeat split; congruence. Qed.

(** The run of [testGracefulDegradation]: [fail-key] is refused by the
    provider and lands in memory; [memory-key] is accepted by the provider
    and does not, so the fallbacks for it ([get], [has], [delete], all over a
    failing provider) find nothing. *)
Lemma demo_memory_key_is_not_in_memory :
  let w1 := snd (StateAsync.set "fail-key" (JsString "this will fail in storage")
                   None Demo.degradation_test) in
  let w2 := snd (StateAsync.set "memory-key" (JsString "this will work in memory")
                   None w1) in
  let w3 := snd (StateAsync.get "fail-key" w2) in
  let w4 := snd (StateAsync.get "memory-key" w3) in
  let w5 := snd (StateAsync.has "memory-key" w4) in
  fst (StateAsync.get "fail-key" w2) = Returns (JsString "this will fail in storage")
  /\ fst (StateAsync.get "memory-key" w3) = Returns JsUndefined
  /\ fst (StateAsync.has "memory-key" w4) = Returns false
  /\ fst (StateAsync.delete "memory-key" w5) = Returns false.
Proof. by vm_compute. Qed.

(** ** Change events *)

Lemma notify_quiet {S} (w : StateAsync.Runtime S) key oldValue value :
  StateAsync.emitEvents (StateAsync.props w) = true ->
  quiet (StateAsync.eventHandlers (StateAsync.props w)) (key +:+ ".changed")
        (change_payload oldValue value) ->
  notify key oldValue value w
  = (Returns tt,
     StateAsync.with_calls
       (StateAsync.calls w
        ++ map (fun handler => (handler_id handler, change_payload oldValue value))
               (handlers_of (StateAsync.eventHandlers (StateAsync.props w))
                  (key +:+ ".changed")))
       w).
Proof.
  unfold notify, StateAsync.emit, quiet. intros -> Hquiet.
  by rewrite (invoke_all_quiet _ _ _ Hquiet).
Qed.

Lemma set_twice_unbound {S} (w : StateAsync.Runtime S) key v1 v2 ttl1 ttl2 :
  key <> "__proto__" ->
  StateAsync.storage (StateAsync.props w) = None ->
  StateAsync.emitEvents (StateAsync.props w) = true ->
  (forall data,
     quiet (StateAsync.eventHandlers (StateAsync.props w)) (key +:+ ".changed") data) ->
  let subscribers :=
    handlers_of (StateAsync.eventHandlers (StateAsync.props w)) (key +:+ ".changed") in
  let oldValue := read_property (StateAsync.currentState (StateAsync.props w)) key in
  StateAsync.calls
    (snd (StateAsync.set key v2 ttl2 (snd (StateAsync.set key v1 ttl1 w))))
  = StateAsync.calls w
    ++ map (fun handler => (handler_id handler, change_payload oldValue v1)) subscribers
    ++ map (fun handler => (handler_id handler, change_payload v1 v2)) subscribers.
Proof.
  intros Hkey Hstorage Hemit Hquiet subscribers oldValue. subst subscribers oldValue.
  rewrite (set_unbound w) by done.
  rewrite notify_quiet by (done || apply Hquiet). cbn [snd].
  rewrite set_unbound by done.
  rewrite notify_quiet by (done || apply Hquiet). simpl.
  rewrite (read_write_same _ _ _ Hkey).
  by rewrite <- app_assoc.
Qed.

(** The scenario of the change events on a unit without a binding: a
    subscriber registered on a fresh ["key.changed"] is called twice, first
    with the value memory held before, then with the first value written. *)
Lemma change_events_in_order_unbound {S} (w : StateAsync.Runtime S)
    key handler v1 v2 ttl1 ttl2 :
  key <> "__proto__" ->
  StateAsync.storage (StateAsync.props w) = None ->
  StateAsync.emitEvents (StateAsync.props w) = true ->
  handlers_of (StateAsync.eventHandlers (StateAsync.props w)) (key +:+ ".changed") = [] ->
  (forall data, handler_body handler data = None) ->
  let subscribed := snd (StateAsync.on (key +:+ ".changed") handler w) in
  StateAsync.calls
    (snd (StateAsync.set key v2 ttl2 (snd (StateAsync.set key v1 ttl1 subscribed))))
  = StateAsync.calls w
    ++ [(handler_id handler,
         change_payload
           (read_property (StateAsync.currentState (StateAsync.props w)) key) v1);
        (handler_id handler, change_payload v1 v2)].
Proof.
  intros Hkey Hstorage Hemit Hfresh Hbody subscribed.
  assert (Hsubscribers :
    handlers_of (StateAsync.eventHandlers (StateAsync.props subscribed))
      (key +:+ ".changed") = [handler]).
  { subst subscribed. simpl. by rewrite handlers_of_register_same, Hfresh. }
  rewrite set_twice_unbound; [by rewrite Hsubscribers|done|done|done|].
  intros data. unfold quiet. rewrite Hsubscribers.
  by apply Forall_singleton.
Qed.

(** What a subscriber throws does come out of [set], with or without a
    binding: the call of [emit] is outside the [try]. *)
Lemma set_propagates_handler_failure :
  let w := snd (StateAsync.on "fail-key.changed" (Demo.faulty_listener 1)
                  (StateAsync.boot
                     (StateAsync.create
                        {| Config.unitId := "degradation-test";
                           Config.initialState := None;
                           Config.emitEvents := Some true;
                           Config.storage := Some Demo.UnreliableStorage |}) 0)) in
  fst (StateAsync.set "fail-key" JsNull None w)
  = Throws (HandlerFailure "handler failed")
  /\ fst (StateAsync.set "fail-key" JsNull None (memory_only w))
     = Throws (HandlerFailure "handler failed").
Proof. by vm_compute. Qed.

(** C7.  On the unit of the persistent-state demo (events on, writes stored)
    with one subscriber on ["k.changed"], [set("k", 1)] then [set("k", 2)]
    call the subscriber twice, and the second payload carries
    [oldValue: undefined] where [oldValue: 1] is due: the value read from
    memory before the write is stale. *)
Theorem change_event_after_stored_write_has_stale_oldValue :
  let w := snd (StateAsync.on "k.changed" (Demo.listener 1) Demo.persistent_test) in
  let w' := snd (StateAsync.set "k" (JsNumber 2) None
                   (snd (StateAsync.set "k" (JsNumber 1) None w))) in
  payloads_of 1 (StateAsync.calls w')
  = [change_payload JsUndefined (JsNumber 1); change_payload JsUndefined (JsNumber 2)]
  /\ payloads_of 1 (StateAsync.calls w')
     <> [change_payload JsUndefined (JsNumber 1);
         change_payload (JsNumber 1) (JsNumber 2)].
Proof. vm_compute. split; congruence. Qed.

(** ** The teaching contract *)


(** ** Events are off unless asked for *)




Lemma emit_props {S} (w : StateAsync.Runtime S) event data :
  StateAsync.props (snd (StateAsync.emit event data w)) = StateAsync.props w.
Proof. unfold StateAsync.emit. by destruct (invoke_all _ _ _). Qed.



Lemma set_silent {S} (w : StateAsync.Runtime S) key value ttl :
  StateAsync.emitEvents (StateAsync.props w) = false ->
  StateAsync.calls (snd (StateAsync.set key value ttl w)) = StateAsync.calls w.
Proof.
  intros Hoff.
  destruct (set_is_notify w key value ttl) as (w1 & -> & Hemit & _ & _ & Hcalls).
  unfold notify. by rewrite Hemit, Hoff.
Qed.





(** * Further properties of the units *)

(** ** Dispatch: order, duplicates, the first handler that throws *)

Lemma invoke_all_first_failure (before rest : list EventHandler) bad data calls message :
  Forall (fun handler => handler_body handler data = None) before ->
  handler_body bad data = Some message ->
  invoke_all (before ++ bad :: rest) data calls
  = (Throws (HandlerFailure message),
     calls ++ calls_to before data ++ [(handler_id bad, data)]).
Proof.
  intros Hquiet Hbad. revert calls.
  induction Hquiet as [|handler before Hbody _ IH]; intros calls; simpl.
  - by rewrite Hbad.
  - rewrite Hbody, IH. by rewrite <- !app_assoc.
Qed.

Lemma invoke_all_added (handlers : list EventHandler) data calls :
  exists called,
    called `prefix_of` handlers
    /\ snd (invoke_all handlers data calls) = calls ++ calls_to called data.
Proof.
  revert calls. induction handlers as [|handler rest IH]; intros calls; simpl.
  - exists []. split; [done|]. by rewrite app_nil_r.
  - destruct (handler_body handler data); simpl.
    + exists [handler]. split; [by apply prefix_cons, prefix_nil|done].
    + destruct (IH (calls ++ [(handler_id handler, data)])) as (called & Hprefix & ->).
      exists (handler :: called). split; [by apply prefix_cons|].
      by rewrite <- app_assoc.
Qed.

Lemma payloads_of_app id (calls added : list Invocation) :
  payloads_of id (calls ++ added) = payloads_of id calls ++ payloads_of id added.
Proof. unfold payloads_of. by rewrite filter_app, fmap_app. Qed.

Lemma payloads_of_strangers id (called : list EventHandler) data :
  (forall handler, handler ∈ called -> handler_id handler <> id) ->
  payloads_of id (calls_to called data) = [].
Proof.
  unfold payloads_of, calls_to. induction called as [|handler rest IH]; intros Hids.
  - done.
  - simpl. rewrite filter_cons_False.
    + apply IH. intros h Hin. apply Hids. by right.
    + simpl. apply Hids. by left.
Qed.

Lemma append_length (s t : string) :
  String.length (s +:+ t) = String.length s + String.length t.
Proof.
  induction s as [|c s IH]; [done|].
  change (String c s +:+ t) with (String c (s +:+ t)). simpl. by rewrite IH.
Qed.

Lemma append_inj_l (s1 s2 t : string) : s1 +:+ t = s2 +:+ t -> s1 = s2.
Proof.
  revert s2. induction s1 as [|c s1 IH]; intros [|d s2] Heq.
  - done.
  - apply (f_equal String.length) in Heq.
    rewrite !append_length in Heq. simpl in Heq. lia.
  - apply (f_equal String.length) in Heq.
    rewrite !append_length in Heq. simpl in Heq. lia.
  - change (String c (s1 +:+ t) = String d (s2 +:+ t)) in Heq.
    injection Heq as -> Heq. by rewrite (IH _ Heq).
Qed.

(** X2.  [emit] calls the handlers of the event in the order they were
    registered and stops at the first one that throws: what it threw comes
    out of [emit], the handlers before it were called, those after it are
    not.  In [State] and in [StateAsync] alike. *)
Theorem emit_stops_at_the_first_handler_that_throws {S}
    (v : State.Runtime) (w : StateAsync.Runtime S)
    event data (before rest : list EventHandler) bad message :
  Forall (fun handler => handler_body handler data = None) before ->
  handler_body bad data = Some message ->
  (handlers_of (State.eventHandlers (State.props v)) event = before ++ bad :: rest ->
   State.emit event data v
   = (Throws (HandlerFailure message),
      State.with_calls
        (State.calls v ++ calls_to before data ++ [(handler_id bad, data)]) v))
  /\ (handlers_of (StateAsync.eventHandlers (StateAsync.props w)) event
      = before ++ bad :: rest ->
      StateAsync.emit event data w
      = (Throws (HandlerFailure message),
         StateAsync.with_calls
           (StateAsync.calls w ++ calls_to before data ++ [(handler_id bad, data)]) w)).
Proof.
  intros Hquiet Hbad. split; intros Hhandlers.
  - unfold State.emit. rewrite Hhandlers.
    by rewrite (invoke_all_first_failure _ _ _ _ _ _ Hquiet Hbad).
  - unfold StateAsync.emit. rewrite Hhandlers.
    by rewrite (invoke_all_first_failure _ _ _ _ _ _ Hquiet Hbad).
Qed.

Lemma emit_stops_at_the_first_handler_that_throws_witness :
  let v := snd (State.on "custom.event" (Demo.listener 3)
             (snd (State.on "custom.event" (Demo.faulty_listener 2)
                (snd (State.on "custom.event" (Demo.listener 1)
                   (State.boot (Index.createState "test-unit" None))))))) in
  State.calls (snd (State.emit "custom.event" JsNull v)) = [(1, JsNull); (2, JsNull)].
Proof.
  intros v.
  destruct (emit_stops_at_the_first_handler_that_throws v Demo.degradation_test
              "custom.event" JsNull [Demo.listener 1] [Demo.listener 3]
              (Demo.faulty_listener 2) "handler failed")
    as [Hstate _].
  - by apply Forall_singleton.
  - reflexivity.
  - by rewrite (Hstate eq_refl).
Defined.

(** ** The synchronous unit *)

Lemma State_set_unfold (v : State.Runtime) key value :
  State.set key value v
  = State.emit (key +:+ ".changed")
      (change_payload (read_property (State.currentState (State.props v)) key) value)
      (State.with_currentState
         (write_property (State.currentState (State.props v)) key value) v).
Proof. reflexivity. Qed.

Lemma State_emit_props (v : State.Runtime) event data :
  State.props (snd (State.emit event data v)) = State.props v.
Proof. unfold State.emit. by destruct (invoke_all _ _ _). Qed.

Lemma State_emit_quiet (v : State.Runtime) event data :
  quiet (State.eventHandlers (State.props v)) event data ->
  State.emit event data v
  = (Returns tt,
     State.with_calls
       (State.calls v
        ++ calls_to (handlers_of (State.eventHandlers (State.props v)) event) data) v).
Proof.
  unfold State.emit, quiet. intros Hquiet.
  by rewrite (invoke_all_quiet _ _ _ Hquiet).
Qed.

(** X1.  For a key other than ["__proto__"] whose change event has no
    subscriber, on a memory object with the prototype of an object literal
    (or [null], or a plain data object), [State.set(key, value)] returns and
    the unit holds [value] under [key]: [get(key)] returns [value],
    [has(key)] is true, [getAll()] is the mapping of before with [key] set,
    and every other key reads as before. *)
Theorem State_set_then_get (v : State.Runtime) key value :
  key <> "__proto__" ->
  modelled (prototype (State.currentState (State.props v))) = true ->
  handlers_of (State.eventHandlers (State.props v)) (key +:+ ".changed") = [] ->
  let memory := State.currentState (State.props v) in
  let v' := snd (State.set key value v) in
  fst (State.set key value v) = Returns tt
  /\ State.get key v' = (Returns value, v')
  /\ State.has key v' = (Returns true, v')
  /\ State.getAll v' = (Returns (<[key := value]> (own memory)), v')
  /\ forall other,
       other <> key ->
       State.get other v' = (Returns (read_property memory other), v')
       /\ State.has other v' = (Returns (has_property memory other), v').
Proof.
  intros Hkey _ Hnone memory v'. subst memory v'.
  unfold State.get, State.has, State.getAll.
  rewrite State_set_unfold. unfold State.emit. simpl. rewrite Hnone. simpl.
  rewrite (read_write_same _ _ _ Hkey), (has_write_same _ _ _ Hkey).
  split; [done|]. split; [done|]. split; [done|].
  split; [by rewrite (write_property_own _ _ _ Hkey)|].
  intros other Hother.
  by rewrite (read_write_other _ _ _ _ Hkey Hother),
    (has_write_other _ _ _ _ Hkey Hother).
Qed.

Lemma State_set_then_get_witness :
  let v := State.boot
             (State.create
                {| State.unitId := "test-unit";
                   State.initialState := {[ "connected" := JsBoolean false ]} |}) in
  fst (State.get "connected" (snd (State.set "connected" (JsBoolean true) v)))
  = Returns (JsBoolean true).
Proof.
  intros v.
  destruct (State_set_then_get v "connected" (JsBoolean true))
    as (_ & Hget & _); [done|reflexivity|reflexivity|].
  by rewrite Hget.
Defined.

(** X3.  [on] appends and does not deduplicate: after [on(event, handler)]
    an [emit(event, data)] calls the handlers that were there, in their
    order, and then [handler]; after a second [on] of the same handler it is
    called twice.  The handlers of other events are as they were. *)
Theorem State_on_appends_in_order (v : State.Runtime) event handler data :
  quiet (State.eventHandlers (State.props v)) event data ->
  handler_body handler data = None ->
  let subscribers := handlers_of (State.eventHandlers (State.props v)) event in
  let once := snd (State.on event handler v) in
  let twice := snd (State.on event handler once) in
  State.emit event data once
  = (Returns tt,
     State.with_calls
       (State.calls v ++ calls_to subscribers data ++ [(handler_id handler, data)])
       once)
  /\ State.emit event data twice
     = (Returns tt,
        State.with_calls
          (State.calls v ++ calls_to subscribers data
           ++ [(handler_id handler, data); (handler_id handler, data)])
          twice)
  /\ forall other,
       other <> event ->
       handlers_of (State.eventHandlers (State.props once)) other
       = handlers_of (State.eventHandlers (State.props v)) other.
Proof.
  intros Hquiet Hbody subscribers once twice.
  assert (Honce : handlers_of (State.eventHandlers (State.props once)) event
                  = subscribers ++ [handler])
    by (subst once; simpl; apply handlers_of_register_same).
  assert (Htwice : handlers_of (State.eventHandlers (State.props twice)) event
                   = subscribers ++ [handler; handler]).
  { subst twice once subscribers. simpl. rewrite !handlers_of_register_same.
    by rewrite <- app_assoc. }
  split; [|split].
  - rewrite State_emit_quiet.
    + rewrite Honce. unfold calls_to. by rewrite map_app.
    + unfold quiet. rewrite Honce. apply Forall_app. split; [done|].
      by apply Forall_singleton.
  - rewrite State_emit_quiet.
    + rewrite Htwice. unfold calls_to. by rewrite map_app.
    + unfold quiet. rewrite Htwice. apply Forall_app. split; [done|].
      by repeat constructor.
  - intros other Hne. subst once. simpl. by apply handlers_of_register_other.
Qed.

Lemma State_on_appends_in_order_witness :
  let v := snd (State.on "connected.changed" (Demo.listener 1)
                  (State.boot (Index.createState "test-unit" None))) in
  State.calls
    (snd (State.emit "connected.changed" JsNull
            (snd (State.on "connected.changed" (Demo.listener 2)
                    (snd (State.on "connected.changed" (Demo.listener 2) v))))))
  = [(1, JsNull); (2, JsNull); (2, JsNull)].
Proof.
  intros v.
  destruct (State_on_appends_in_order v "connected.changed" (Demo.listener 2) JsNull)
    as (_ & Htwice & _).
  - unfold quiet. by apply Forall_singleton.
  - reflexivity.
  - by rewrite Htwice.
Defined.

Lemma field_is_Some fields key :
  is_Some (field fields key) <-> key ∈ fields.*1.
Proof.
  induction fields as [|[name value] rest IH]; simpl.
  - split; [by intros [? ?]|by intros ?%elem_of_nil].
  - rewrite elem_of_cons, <- IH.
    destruct (field rest key) as [later|].
    + split; [right|]; by eexists.
    + case_bool_decide as Hname.
      * split; [by left|by eexists].
      * split; [by intros [? ?]|].
        intros [->|[? ?]]; done.
Qed.

Lemma object_prototype_member_names key :
  is_Some (object_prototype_member key) <-> key ∈ object_prototype_names.
Proof.
  unfold object_prototype_member, object_prototype_names.
  rewrite elem_of_cons, <- field_is_Some.
  case_bool_decide as Hkey.
  - split; [by left|by eexists].
  - rewrite fmap_is_Some. split; [by right|]. by intros [?|?].
Qed.

(** X4.  A unit made by [createState(unitId)] with the initial state left
    out has no entry: [getAll()] is the empty mapping, and [emit] of any
    event returns without a call, there being no subscriber.  Its memory is
    an object literal, so [has(key)] is true exactly for the twelve names of
    [Object.prototype] (["constructor"], ["toString"], ["__proto__"], ...),
    and [get(key)] is [undefined] for every other key. *)
Theorem createState_without_initial_state_is_empty unitId key event data :
  let v := State.boot (Index.createState unitId None) in
  State.getAll v = (Returns ∅, v)
  /\ State.has key v = (Returns (bool_decide (key ∈ object_prototype_names)), v)
  /\ (key ∉ object_prototype_names -> State.get key v = (Returns JsUndefined, v))
  /\ State.emit event data v = (Returns tt, v).
Proof.
  intros v. subst v.
  unfold State.getAll, State.get, State.has, State.emit, read_property,
    has_property, handlers_of.
  simpl. rewrite !lookup_empty. simpl.
  split; [done|]. split; [|split; [|done]].
  - do 2 f_equal. apply bool_decide_ext, object_prototype_member_names.
  - intros Hkey.
    destruct (object_prototype_member key) as [member|] eqn:Hmember; [|done].
    exfalso. apply Hkey, object_prototype_member_names. by eexists.
Qed.

Lemma createState_without_initial_state_is_empty_witness :
  let v := State.boot (Index.createState "test-unit" None) in
  State.get "connected" v = (Returns JsUndefined, v)
  /\ State.has "connected" v = (Returns false, v)
  /\ State.has "constructor" v = (Returns true, v).
Proof.
  intros v.
  destruct (createState_without_initial_state_is_empty
              "test-unit" "connected" "connected.changed" JsNull)
    as (_ & Hhas & Hget & _).
  destruct (createState_without_initial_state_is_empty
              "test-unit" "constructor" "connected.changed" JsNull)
    as (_ & Hinherited & _).
  split; [|split].
  - apply Hget. apply (bool_decide_unpack _). by vm_compute.
  - exact Hhas.
  - exact Hinherited.
Defined.



Lemma StateRun_after_identity (c : StateRun.Call) (v : State.Runtime) :
  State.dna (State.props (StateRun.after c v)) = State.dna (State.props v)
  /\ State.ownerId (State.props (StateRun.after c v)) = State.ownerId (State.props v).
Proof.
  destruct c; simpl; try done.
  - rewrite State_set_unfold, State_emit_props. done.
  - by rewrite State_emit_props.
Qed.

(** X7.  What [whoami()] says is fixed at creation: whatever is called on a
    unit made from [config], in whatever order, [whoami()] returns
    ["State[<unitId>] - v1.0.0"]. *)
Theorem State_whoami_is_fixed_at_creation (config : State.StateConfig)
    (history : list StateRun.Call) :
  fst (State.whoami (StateRun.after_all history (State.boot (State.create config))))
  = Returns ("State[" +:+ State.unitId config +:+ "] - v1.0.0").
Proof.
  assert (Hidentity : forall v,
    State.dna (State.props (StateRun.after_all history v)) = State.dna (State.props v)
    /\ State.ownerId (State.props (StateRun.after_all history v))
       = State.ownerId (State.props v)).
  { unfold StateRun.after_all.
    induction history as [|c history IH]; intros v; simpl; [done|].
    destruct (IH (StateRun.after c v)) as [-> ->]. apply StateRun_after_identity. }
  unfold State.whoami. simpl.
  destruct (Hidentity (State.boot (State.create config))) as [-> ->]. done.
Qed.

(** ** The asynchronous unit: what no call changes *)

Lemma set_eventHandlers {S} (w : StateAsync.Runtime S) key value ttl :
  StateAsync.eventHandlers (StateAsync.props (snd (StateAsync.set key value ttl w)))
  = StateAsync.eventHandlers (StateAsync.props w).
Proof.
  destruct (set_is_notify w key value ttl) as (w1 & -> & _ & Hhandlers & _).
  by rewrite notify_props.
Qed.

Lemma set_wiring {S} (w : StateAsync.Runtime S) key value ttl :
  same_wiring (StateAsync.props (snd (StateAsync.set key value ttl w)))
    (StateAsync.props w).
Proof.
  unfold same_wiring.
  destruct (StateAsync.storage (StateAsync.props w)) as [binding|] eqn:Hstorage.
  - destruct (Binding.set binding key value ttl (StateAsync.backend w))
      as [[[]|message] s'] eqn:Hset.
    + rewrite (set_resolved _ _ _ _ _ _ Hstorage Hset), notify_props. by simpl.
    + rewrite (set_rejected _ _ _ _ _ _ _ Hstorage Hset), notify_props. by simpl.
  - rewrite (set_unbound _ _ _ _ Hstorage), notify_props. by simpl.
Qed.

Lemma delete_shape {S} (w : StateAsync.Runtime S) key :
  same_wiring (StateAsync.props (snd (StateAsync.delete key w))) (StateAsync.props w)
  /\ StateAsync.eventHandlers (StateAsync.props (snd (StateAsync.delete key w)))
     = StateAsync.eventHandlers (StateAsync.props w)
  /\ StateAsync.calls (snd (StateAsync.delete key w)) = StateAsync.calls w.
Proof.
  unfold same_wiring. step_eff.
  destruct (StateAsync.storage (StateAsync.props w)) as [binding|] eqn:Hstorage;
    [|by rewrite ?Hstorage].
  by destruct (Binding.delete binding key (StateAsync.backend w))
    as [[deleted|message] s']; simpl; rewrite ?Hstorage.
Qed.

Lemma clear_shape {S} (w : StateAsync.Runtime S) :
  same_wiring (StateAsync.props (snd (StateAsync.clear w))) (StateAsync.props w)
  /\ StateAsync.eventHandlers (StateAsync.props (snd (StateAsync.clear w)))
     = StateAsync.eventHandlers (StateAsync.props w)
  /\ StateAsync.calls (snd (StateAsync.clear w)) = StateAsync.calls w.
Proof.
  unfold same_wiring. step_eff.
  destruct (StateAsync.storage (StateAsync.props w)) as [binding|] eqn:Hstorage;
    [|by rewrite ?Hstorage].
  destruct (Binding.clear binding) as [clear_|]; [|by rewrite ?Hstorage].
  by destruct (clear_ (StateAsync.backend w)) as [[[]|message] s']; simpl;
    rewrite ?Hstorage.
Qed.

Lemma after_shape {S} (c : StateAsync.Call) (w : StateAsync.Runtime S) :
  same_wiring (StateAsync.props (StateAsync.after c w)) (StateAsync.props w)
  /\ forall event,
       handlers_of (StateAsync.eventHandlers (StateAsync.props w)) event
       `prefix_of`
       handlers_of (StateAsync.eventHandlers (StateAsync.props (StateAsync.after c w)))
         event.
Proof.
  destruct c; simpl.
  - by rewrite get_memory.
  - split; [apply set_wiring|]. intros event. by rewrite set_eventHandlers.
  - by rewrite has_memory.
  - destruct (delete_shape w key) as (? & -> & _). done.
  - destruct (clear_shape w) as (? & -> & _). done.
  - done.
  - split; [done|]. intros other.
    destruct (decide (event = other)) as [->|Hne].
    + rewrite handlers_of_register_same. by apply prefix_app_r.
    + by rewrite handlers_of_register_other.
  - by rewrite emit_props.
  - done.
Qed.

Lemma after_all_shape {S} (history : list StateAsync.Call) (w : StateAsync.Runtime S) :
  same_wiring (StateAsync.props (StateAsync.after_all history w)) (StateAsync.props w)
  /\ forall event,
       handlers_of (StateAsync.eventHandlers (StateAsync.props w)) event
       `prefix_of`
       handlers_of
         (StateAsync.eventHandlers (StateAsync.props (StateAsync.after_all history w)))
         event.
Proof.
  unfold StateAsync.after_all. revert w.
  induction history as [|c history IH]; intros w; simpl; [done|].
  destruct (IH (StateAsync.after c w)) as ((Hdna & Howner & Hemit & Hstorage) & Hgrow).
  destruct (after_shape c w) as ((Hdna' & Howner' & Hemit' & Hstorage') & Hgrow').
  split.
  - unfold same_wiring. by rewrite Hdna, Howner, Hemit, Hstorage.
  - intros event. etrans; [apply Hgrow'|apply Hgrow].
Qed.

(** X8.  What a unit is created with stays: after any calls on a unit made
    from [config], the storage binding, the [emitEvents] flag and the
    identity are those of [config], and [whoami()] returns
    ["State[<unitId>] - persistent - v1.0.0"] with a binding and
    ["State[<unitId>] - memory - v1.0.0"] without. *)
Theorem StateAsync_wiring_is_fixed_at_creation {S} (config : Config.StateAsyncConfig S)
    (s : S) (history : list StateAsync.Call) :
  let w := StateAsync.after_all history (StateAsync.boot (StateAsync.create config) s) in
  StateAsync.storage (StateAsync.props w) = Config.storage config
  /\ StateAsync.emitEvents (StateAsync.props w)
     = default false (Config.emitEvents config)
  /\ Unit.id (StateAsync.dna (StateAsync.props w)) = "state-" +:+ Config.unitId config
  /\ fst (StateAsync.whoami w)
     = Returns ("State[" +:+ Config.unitId config +:+ "] - "
                +:+ match Config.storage config with
                    | Some _ => "persistent"
                    | None => "memory"
                    end
                +:+ " - v1.0.0").
Proof.
  intros w.
  destruct (after_all_shape history (StateAsync.boot (StateAsync.create config) s))
    as ((Hdna & Howner & Hemit & Hstorage) & _).
  fold w in Hdna, Howner, Hemit, Hstorage.
  split; [by rewrite Hstorage|]. split; [by rewrite Hemit|].
  split; [by rewrite Hdna|].
  unfold StateAsync.whoami. simpl. rewrite Hdna, Howner, Hstorage. simpl.
  by destruct (Config.storage config).
Qed.

(** X9.  There is no way to unsubscribe: whatever is called on the unit, the
    handlers registered for an event stay registered, in their places, and
    later ones come after them ([set], [delete] and [clear] do not touch the
    registry). *)
Theorem subscriptions_are_never_dropped {S} (w : StateAsync.Runtime S)
    (history : list StateAsync.Call) event :
  handlers_of (StateAsync.eventHandlers (StateAsync.props w)) event
  `prefix_of`
  handlers_of
    (StateAsync.eventHandlers (StateAsync.props (StateAsync.after_all history w)))
    event.
Proof. apply after_all_shape. Qed.

(** X10.  Reading does not write: [get] and [has] leave the unit's memory,
    subscriptions and flags as they are and call no handler, whatever the
    provider answers or throws; [getAll], [teach] and [whoami] leave the
    whole runtime as it is, the provider and the console included. *)
Theorem reads_do_not_write {S} (w : StateAsync.Runtime S) key :
  StateAsync.props (snd (StateAsync.get key w)) = StateAsync.props w
  /\ StateAsync.calls (snd (StateAsync.get key w)) = StateAsync.calls w
  /\ StateAsync.props (snd (StateAsync.has key w)) = StateAsync.props w
  /\ StateAsync.calls (snd (StateAsync.has key w)) = StateAsync.calls w
  /\ snd (StateAsync.getAll w) = w
  /\ snd (StateAsync.teach w) = w
  /\ snd (StateAsync.whoami w) = w.
Proof.
  split; [apply get_memory|].
  split.
  { destruct (StateAsync.storage (StateAsync.props w)) as [binding|] eqn:Hstorage.
    - destruct (Binding.get binding key (StateAsync.backend w))
        as [[value|message] s'] eqn:Hget.
      + by rewrite (get_resolved _ _ _ _ _ Hstorage Hget).
      + by rewrite (get_rejected _ _ _ _ _ Hstorage Hget).
    - by rewrite (get_unbound _ _ Hstorage). }
  split; [apply has_memory|].
  split; [|done].
  destruct (exists_capability w) as [exists_|] eqn:Hcap.
  - destruct (exists_ key (StateAsync.backend w)) as [[found|message] s'] eqn:Hcall.
    + by rewrite (has_resolved _ _ _ _ _ Hcap Hcall).
    + by rewrite (has_rejected _ _ _ _ _ Hcap Hcall).
  - by rewrite (has_without_exists _ _ Hcap).
Qed.

(** ** The asynchronous unit without a binding *)

(** X11.  Without a storage binding, for a key other than ["__proto__"] and
    a memory object with the prototype of an object literal (or [null], or
    a plain data object), when [set(key, value)] calls no handler (events
    are off, or nobody subscribed to the key's change event), it returns and
    memory holds the value: [get(key)] returns [value], [has(key)] is true,
    [getAll()] is the mapping of before with [key] set, other keys read as
    before, and nothing is put on the console. *)
Theorem StateAsync_unbound_set_then_get {S} (w : StateAsync.Runtime S) key value ttl :
  key <> "__proto__" ->
  modelled (prototype (StateAsync.currentState (StateAsync.props w))) = true ->
  StateAsync.storage (StateAsync.props w) = None ->
  StateAsync.emitEvents (StateAsync.props w) = false
  \/ handlers_of (StateAsync.eventHandlers (StateAsync.props w)) (key +:+ ".changed")
     = [] ->
  let memory := StateAsync.currentState (StateAsync.props w) in
  let w' := snd (StateAsync.set key value ttl w) in
  fst (StateAsync.set key value ttl w) = Returns tt
  /\ StateAsync.get key w' = (Returns value, w')
  /\ StateAsync.has key w' = (Returns true, w')
  /\ StateAsync.getAll w' = (Returns (<[key := value]> (own memory)), w')
  /\ (forall other,
        other <> key ->
        StateAsync.get other w' = (Returns (read_property memory other), w')
        /\ StateAsync.has other w' = (Returns (has_property memory other), w'))
  /\ StateAsync.console w' = StateAsync.console w.
Proof.
  intros Hkey _ Hstorage Hsilent memory w'.
  assert (Hset : StateAsync.set key value ttl w
                 = (Returns tt,
                    StateAsync.with_currentState (write_property memory key value) w)).
  { rewrite set_unbound by done. unfold notify, StateAsync.emit. simpl.
    destruct Hsilent as [->|Hnone]; [done|].
    destruct (StateAsync.emitEvents (StateAsync.props w)); [|done].
    by rewrite Hnone. }
  subst w'. rewrite Hset. simpl.
  set (w' := StateAsync.with_currentState (write_property memory key value) w).
  assert (Hunbound : StateAsync.storage (StateAsync.props w') = None) by done.
  assert (Hcap : exists_capability w' = None)
    by (unfold exists_capability; by rewrite Hunbound).
  assert (Hmemory : StateAsync.currentState (StateAsync.props w')
                    = write_property memory key value) by done.
  rewrite !(get_unbound w') by done. rewrite !(has_without_exists w') by done.
  unfold StateAsync.getAll. rewrite Hmemory.
  rewrite (read_write_same _ _ _ Hkey), (has_write_same _ _ _ Hkey).
  split; [done|]. split; [done|]. split; [done|].
  split; [by rewrite (write_property_own _ _ _ Hkey)|].
  split; [|done].
  intros other Hne. rewrite !(get_unbound w'), !(has_without_exists w') by done.
  rewrite Hmemory.
  by rewrite (read_write_other _ _ _ _ Hkey Hne), (has_write_other _ _ _ _ Hkey Hne).
Qed.

Lemma StateAsync_unbound_set_then_get_witness :
  let w := Demo.network_unbound () in
  fst (StateAsync.get "lastError"
         (snd (StateAsync.set "lastError" (JsString "Connection failed") None w)))
  = Returns (JsString "Connection failed").
Proof.
  intros w.
  destruct (StateAsync_unbound_set_then_get w "lastError"
              (JsString "Connection failed") None) as (_ & Hget & _);
    [done|reflexivity|reflexivity|by right|].
  by rewrite Hget.
Defined.

Lemma read_delete_same (obj : PlainObject) key :
  inherits obj key = false -> read_property (delete_property obj key) key = JsUndefined.
Proof.
  unfold inherits, read_property, delete_property. simpl.
  intros Hnone%bool_decide_eq_false. rewrite lookup_delete_eq.
  destruct (inherited (prototype obj) key); [|done].
  exfalso. apply Hnone. by eexists.
Qed.

(** X12.  [delete(key)] on a unit without a binding, whose memory object
    has the prototype of an object literal (or [null], or a plain data
    object), removes the unit's own entry and returns [key in currentState]
    as it was before.  Afterwards [has(key)] and a second [delete(key)]
    return whether the name is inherited from the prototype of the memory
    object.  For a name that is not inherited the key is gone: the first
    [delete] returns whether the entry was there, [get(key)] returns
    [undefined], [has(key)] is false and a second [delete(key)] returns
    false. *)
Theorem StateAsync_unbound_delete_removes_the_entry {S} (w : StateAsync.Runtime S) key :
  StateAsync.storage (StateAsync.props w) = None ->
  modelled (prototype (StateAsync.currentState (StateAsync.props w))) = true ->
  let memory := StateAsync.currentState (StateAsync.props w) in
  let w' := snd (StateAsync.delete key w) in
  fst (StateAsync.delete key w) = Returns (has_property memory key)
  /\ StateAsync.currentState (StateAsync.props w') !! key = None
  /\ StateAsync.has key w' = (Returns (inherits memory key), w')
  /\ fst (StateAsync.delete key w') = Returns (inherits memory key)
  /\ (inherits memory key = false ->
      fst (StateAsync.delete key w) = Returns (bool_decide (is_Some (memory !! key)))
      /\ StateAsync.get key w' = (Returns JsUndefined, w')
      /\ StateAsync.has key w' = (Returns false, w')
      /\ fst (StateAsync.delete key w') = Returns false).
Proof.
  intros Hstorage _ memory w'.
  destruct (delete_shape w key) as ((_ & _ & _ & Hsame) & _).
  assert (Hunbound : StateAsync.storage (StateAsync.props w') = None)
    by (subst w'; by rewrite Hsame).
  assert (Hcap : exists_capability w' = None)
    by (unfold exists_capability; by rewrite Hunbound).
  assert (Hmemory : StateAsync.currentState (StateAsync.props w')
                    = delete_property memory key)
    by (subst w'; apply delete_memory).
  rewrite !delete_result, (get_unbound w'), (has_without_exists w') by done.
  unfold storageDeleted. rewrite Hstorage, Hunbound, Hmemory, has_delete_same.
  simpl.
  split; [done|]. split; [apply lookup_delete_eq|]. split; [done|]. split; [done|].
  intros Hnot. rewrite (read_delete_same _ _ Hnot), has_property_inherits, Hnot.
  fold memory. rewrite Hnot, orb_false_r. done.
Qed.

Lemma StateAsync_unbound_delete_removes_the_entry_witness :
  let w := Demo.network_unbound () in
  fst (StateAsync.delete "lastError" w) = Returns true
  /\ fst (StateAsync.delete "lastError" (snd (StateAsync.delete "lastError" w)))
     = Returns false.
Proof.
  intros w.
  destruct (StateAsync_unbound_delete_removes_the_entry w "lastError" eq_refl eq_refl)
    as (Hfirst & _ & _ & _ & Hgone).
  destruct (Hgone eq_refl) as (_ & _ & _ & Hsecond).
  split; [exact Hfirst|exact Hsecond].
Defined.

(** ** The asynchronous unit and its provider *)


(** X14.  Where the binding has [exists] and it resolves, [has(key)] returns
    its answer and memory has no say: the answer is the same whatever the
    in-memory mapping holds, also [false] for a key that is in memory, and
    the unit is left as it was. *)
Theorem has_trusts_exists {S} (w : StateAsync.Runtime S) exists_ key found s' :
  exists_capability w = Some exists_ ->
  exists_ key (StateAsync.backend w) = (Resolved found, s') ->
  fst (StateAsync.has key w) = Returns found
  /\ (forall memory,
        fst (StateAsync.has key (StateAsync.with_currentState memory w))
        = Returns found)
  /\ StateAsync.props (snd (StateAsync.has key w)) = StateAsync.props w
  /\ StateAsync.console (snd (StateAsync.has key w)) = StateAsync.console w.
Proof.
  intros Hcap Hcall.
  rewrite (has_resolved _ _ _ _ _ Hcap Hcall).
  split; [done|]. split; [|done].
  intros memory.
  by rewrite (has_resolved (StateAsync.with_currentState memory w) exists_ key found s').
Qed.

Lemma has_trusts_exists_witness :
  let w := Demo.network Demo.MockStorageAdapter ∅ in
  StateAsync.currentState (StateAsync.props w) !! "lastError" = Some JsNull
  /\ fst (StateAsync.has "lastError" w) = Returns false.
Proof.
  intros w. split; [reflexivity|].
  edestruct (has_trusts_exists w) with (key := "lastError") as (Hhas & _);
    [reflexivity|reflexivity|].
  exact Hhas.
Defined.

Lemma get_backend {S} (w : StateAsync.Runtime S) binding key :
  StateAsync.storage (StateAsync.props w) = Some binding ->
  StateAsync.backend (snd (StateAsync.get key w))
  = snd (Binding.get binding key (StateAsync.backend w)).
Proof.
  intros Hstorage.
  destruct (Binding.get binding key (StateAsync.backend w))
    as [[found|message] s'] eqn:Hget.
  - by rewrite (get_resolved _ _ _ _ _ Hstorage Hget).
  - by rewrite (get_rejected _ _ _ _ _ Hstorage Hget).
Qed.







(** X17.  [on] and [emit] do not look at [emitEvents]: on a unit whose flag
    is off, where [set] calls nobody, a manual [emit(event, data)] calls the
    handlers of the event in the order of registration, a handler added by
    [on] last. *)
Theorem manual_emit_works_with_events_off {S} (w : StateAsync.Runtime S)
    key value ttl handler data :
  let event := key +:+ ".changed" in
  StateAsync.emitEvents (StateAsync.props w) = false ->
  quiet (StateAsync.eventHandlers (StateAsync.props w)) event data ->
  handler_body handler data = None ->
  let subscribed := snd (StateAsync.on event handler w) in
  StateAsync.calls (snd (StateAsync.set key value ttl subscribed)) = StateAsync.calls w
  /\ StateAsync.emit event data subscribed
     = (Returns tt,
        StateAsync.with_calls
          (StateAsync.calls w
           ++ calls_to (handlers_of (StateAsync.eventHandlers (StateAsync.props w)) event)
                data
           ++ [(handler_id handler, data)])
          subscribed).
Proof.
  intros event Hoff Hquiet Hbody subscribed.
  split; [subst subscribed; by rewrite set_silent|].
  unfold StateAsync.emit. subst subscribed. simpl.
  rewrite handlers_of_register_same.
  rewrite invoke_all_quiet.
  - unfold calls_to. by rewrite map_app.
  - apply Forall_app. split; [done|]. by apply Forall_singleton.
Qed.

Lemma manual_emit_works_with_events_off_witness :
  let subscribed :=
    snd (StateAsync.on "status.changed" (Demo.listener 1) Demo.degradation_test) in
  StateAsync.calls (snd (StateAsync.set "status" (JsString "ready") None subscribed)) = []
  /\ StateAsync.calls (snd (StateAsync.emit "status.changed" JsNull subscribed))
     = [(1, JsNull)].
Proof.
  intros subscribed.
  destruct (manual_emit_works_with_events_off Demo.degradation_test "status"
              (JsString "ready") None (Demo.listener 1) JsNull eq_refl)
    as [Hset Hemit]; [by apply Forall_nil|reflexivity|].
  split; [exact Hset|].
  exact (f_equal (fun result => StateAsync.calls (snd result)) Hemit).
Defined.

(** ** The circuit-breaker fixture *)

Lemma collapse_cons c (s : list Ascii.ascii) :
  Fixtures.collapse (c :: s)
  = if Ascii.eqb c Fixtures.dash && Fixtures.begins_with_dash s
    then Fixtures.collapse s
    else c :: Fixtures.collapse s.
Proof.
  destruct s as [|d s]; simpl.
  - by destruct (Ascii.eqb c Fixtures.dash).
  - by destruct (Ascii.eqb c Fixtures.dash), (Ascii.eqb d Fixtures.dash).
Qed.

Lemma no_double_dash_cons c (s : list Ascii.ascii) :
  Fixtures.no_double_dash (c :: s)
  = negb (Ascii.eqb c Fixtures.dash && Fixtures.begins_with_dash s)
    && Fixtures.no_double_dash s.
Proof. destruct s as [|d s]; simpl; [by rewrite andb_false_r|done]. Qed.

Lemma dashify_safe (s : list Ascii.ascii) :
  forallb Fixtures.safe (Fixtures.dashify s) = true.
Proof.
  unfold Fixtures.dashify, Fixtures.safe.
  induction s as [|c s IH]; simpl; [done|].
  rewrite IH, andb_true_r.
  destruct (Fixtures.alphanumeric c) eqn:Hc; [by rewrite Hc|done].
Qed.

Lemma collapse_safe (s : list Ascii.ascii) :
  forallb Fixtures.safe s = true -> forallb Fixtures.safe (Fixtures.collapse s) = true.
Proof.
  induction s as [|c s IH]; [done|].
  cbn [forallb]. intros [Hc Hs]%andb_true_iff. specialize (IH Hs).
  rewrite collapse_cons.
  destruct (Ascii.eqb c Fixtures.dash && Fixtures.begins_with_dash s); [done|].
  cbn [forallb]. by rewrite Hc, IH.
Qed.

Lemma collapse_head (s : list Ascii.ascii) :
  Fixtures.begins_with_dash (Fixtures.collapse s) = Fixtures.begins_with_dash s.
Proof.
  induction s as [|c s IH]; [done|].
  rewrite collapse_cons.
  destruct (Ascii.eqb c Fixtures.dash) eqn:Hc; simpl.
  - destruct (Fixtures.begins_with_dash s) eqn:Hs; simpl; [by rewrite IH, Hc|by rewrite Hc].
  - by rewrite Hc.
Qed.

Lemma collapse_no_double_dash (s : list Ascii.ascii) :
  Fixtures.no_double_dash (Fixtures.collapse s) = true.
Proof.
  induction s as [|c s IH]; [done|].
  rewrite collapse_cons.
  destruct (Ascii.eqb c Fixtures.dash && Fixtures.begins_with_dash s) eqn:Hrun; [done|].
  by rewrite no_double_dash_cons, IH, collapse_head, Hrun.
Qed.

Lemma drop_trailing_dash_cons c (s : list Ascii.ascii) :
  Fixtures.drop_trailing_dash (c :: s)
  = match s with
    | [] => if Ascii.eqb c Fixtures.dash then [] else [c]
    | _ :: _ => c :: Fixtures.drop_trailing_dash s
    end.
Proof. by destruct s. Qed.

Lemma drop_trailing_dash_safe (s : list Ascii.ascii) :
  forallb Fixtures.safe s = true ->
  forallb Fixtures.safe (Fixtures.drop_trailing_dash s) = true.
Proof.
  induction s as [|c s IH]; [done|].
  cbn [forallb]. intros [Hc Hs]%andb_true_iff. specialize (IH Hs).
  rewrite drop_trailing_dash_cons. destruct s as [|d s'].
  - destruct (Ascii.eqb c Fixtures.dash); cbn [forallb]; [done|by rewrite Hc].
  - cbn [forallb]. by rewrite Hc, IH.
Qed.

Lemma drop_trailing_dash_shape (s : list Ascii.ascii) :
  Fixtures.no_double_dash s = true ->
  Fixtures.no_double_dash (Fixtures.drop_trailing_dash s) = true
  /\ Fixtures.ends_with_dash (Fixtures.drop_trailing_dash s) = false
  /\ (Fixtures.begins_with_dash s = false ->
      Fixtures.begins_with_dash (Fixtures.drop_trailing_dash s) = false).
Proof.
  induction s as [|c s IH]; [done|].
  rewrite no_double_dash_cons. intros [Hc Hs]%andb_true_iff.
  destruct (IH Hs) as (IHdouble & IHend & IHhead).
  rewrite drop_trailing_dash_cons. destruct s as [|d s'].
  - unfold Fixtures.ends_with_dash.
    destruct (Ascii.eqb c Fixtures.dash) eqn:Hdash; simpl; [done|].
    by rewrite Hdash.
  - rewrite no_double_dash_cons, IHdouble, andb_true_r.
    destruct (Fixtures.drop_trailing_dash (d :: s')) as [|e rest] eqn:Hrest.
    + assert (Hd : Ascii.eqb d Fixtures.dash = true).
      { rewrite drop_trailing_dash_cons in Hrest. destruct s' as [|e s'']; [|done].
        by destruct (Ascii.eqb d Fixtures.dash). }
      simpl in Hc. rewrite Hd, andb_true_r in Hc. apply negb_true_iff in Hc.
      unfold Fixtures.ends_with_dash. simpl. by rewrite Hc.
    + split; [|split; [|done]].
      * destruct (Ascii.eqb c Fixtures.dash) eqn:Hdash; [|done].
        simpl in Hc. apply negb_true_iff in Hc.
        simpl. simpl in IHhead. by rewrite (IHhead Hc).
      * unfold Fixtures.ends_with_dash in *. exact IHend.
Qed.

(** X18.  The id that [createCircuitState] makes for a URL is ["circuit-"]
    followed by letters, digits and single dashes, with no dash at the start
    or at the end of what follows, whatever the URL. *)
Theorem safeId_is_well_formed (url : string) :
  Fixtures.safeId url
  = "circuit-"
    +:+ String.string_of_list_ascii
          (Fixtures.sanitize (String.list_ascii_of_string url))
  /\ Fixtures.well_formed (Fixtures.sanitize (String.list_ascii_of_string url)) = true.
Proof.
  split; [done|].
  unfold Fixtures.sanitize, Fixtures.trim_dashes, Fixtures.well_formed.
  set (s := Fixtures.collapse _).
  assert (Hsafe : forallb Fixtures.safe s = true)
    by apply collapse_safe, dashify_safe.
  assert (Hdouble : Fixtures.no_double_dash s = true)
    by apply collapse_no_double_dash.
  assert (Hleading :
    forallb Fixtures.safe (Fixtures.drop_leading_dash s) = true
    /\ Fixtures.no_double_dash (Fixtures.drop_leading_dash s) = true
    /\ Fixtures.begins_with_dash (Fixtures.drop_leading_dash s) = false).
  { clearbody s. destruct s as [|c s']; [done|].
    rewrite no_double_dash_cons in Hdouble.
    apply andb_true_iff in Hdouble as [Hc Hs'].
    cbn [forallb] in Hsafe. apply andb_true_iff in Hsafe as [Hsafec Hsafes'].
    unfold Fixtures.drop_leading_dash.
    destruct (Ascii.eqb c Fixtures.dash) eqn:Hdash.
    - simpl in Hc. by apply negb_true_iff in Hc.
    - cbn [forallb]. rewrite Hsafec, Hsafes'. split; [done|]. split.
      + by rewrite no_double_dash_cons, Hdash, Hs'.
      + simpl. exact Hdash. }
  destruct Hleading as (Hsafe' & Hdouble' & Hhead').
  destruct (drop_trailing_dash_shape _ Hdouble') as (Hd & He & Hh).
  by rewrite (drop_trailing_dash_safe _ Hsafe'), Hd, He, (Hh Hhead').
Qed.

Lemma starts_with_forallb (f : Ascii.ascii -> bool) (pattern s : list Ascii.ascii) :
  Fixtures.starts_with pattern s = true ->
  forallb f s = true -> forallb f pattern = true.
Proof.
  revert s. induction pattern as [|p pattern IH]; intros [|c s]; simpl; try done.
  intros [Hp Hrest]%andb_true_iff [Hc Hs]%andb_true_iff.
  apply Ascii.eqb_eq in Hp. subst c. rewrite Hc. by apply (IH s).
Qed.

Lemma strip_scheme_fixed (s : list Ascii.ascii) :
  forallb Fixtures.safe s = true -> Fixtures.strip_scheme s = s.
Proof.
  induction s as [|c s IH]; [done|].
  intros Hsafe.
  assert (Hrest : forallb Fixtures.safe s = true)
    by (cbn [forallb] in Hsafe; by apply andb_true_iff in Hsafe as [_ ?]).
  unfold Fixtures.strip_scheme; fold Fixtures.strip_scheme.
  destruct (Fixtures.starts_with (String.list_ascii_of_string "https://") (c :: s))
    eqn:Hhttps.
  { by pose proof (starts_with_forallb _ _ _ Hhttps Hsafe). }
  destruct (Fixtures.starts_with (String.list_ascii_of_string "http://") (c :: s))
    eqn:Hhttp.
  { by pose proof (starts_with_forallb _ _ _ Hhttp Hsafe). }
  by rewrite (IH Hrest).
Qed.

Lemma dashify_fixed (s : list Ascii.ascii) :
  forallb Fixtures.safe s = true -> Fixtures.dashify s = s.
Proof.
  unfold Fixtures.dashify, Fixtures.safe.
  induction s as [|c s IH]; [done|].
  cbn [forallb map]. intros [Hc Hs]%andb_true_iff. rewrite (IH Hs).
  destruct (Fixtures.alphanumeric c); [done|].
  simpl in Hc. apply Ascii.eqb_eq in Hc. by subst c.
Qed.

Lemma collapse_fixed (s : list Ascii.ascii) :
  Fixtures.no_double_dash s = true -> Fixtures.collapse s = s.
Proof.
  induction s as [|c s IH]; [done|].
  rewrite no_double_dash_cons, collapse_cons.
  intros [Hc Hs]%andb_true_iff. apply negb_true_iff in Hc.
  by rewrite Hc, (IH Hs).
Qed.

Lemma drop_trailing_dash_fixed (s : list Ascii.ascii) :
  Fixtures.ends_with_dash s = false -> Fixtures.drop_trailing_dash s = s.
Proof.
  unfold Fixtures.ends_with_dash.
  induction s as [|c s IH]; [done|].
  rewrite drop_trailing_dash_cons. destruct s as [|d s'].
  - simpl. by intros ->.
  - intros Hend. by rewrite (IH Hend).
Qed.

Lemma sanitize_fixed (s : list Ascii.ascii) :
  Fixtures.well_formed s = true -> Fixtures.sanitize s = s.
Proof.
  unfold Fixtures.well_formed, Fixtures.sanitize, Fixtures.trim_dashes.
  intros [[[Hsafe Hdouble]%andb_true_iff Hhead%negb_true_iff]%andb_true_iff
            Hend%negb_true_iff]%andb_true_iff.
  rewrite (strip_scheme_fixed _ Hsafe), (dashify_fixed _ Hsafe),
    (collapse_fixed _ Hdouble).
  assert (Hleading : Fixtures.drop_leading_dash s = s).
  { destruct s as [|c s']; [done|]. simpl in *. by rewrite Hhead. }
  by rewrite Hleading, (drop_trailing_dash_fixed _ Hend).
Qed.

Lemma list_ascii_of_append (a b : string) :
  String.list_ascii_of_string (a +:+ b)
  = String.list_ascii_of_string a ++ String.list_ascii_of_string b.
Proof.
  induction a as [|c a IH]; [done|].
  change (String c a +:+ b) with (String c (a +:+ b)). simpl. by rewrite IH.
Qed.

(** X19.  A host that is already made of letters, digits and single inner
    dashes is kept as it is: its id is ["circuit-"] and the host, with or
    without ["https://"] or ["http://"] before it. *)
Theorem safeId_keeps_a_well_formed_host (host : string) :
  Fixtures.well_formed (String.list_ascii_of_string host) = true ->
  Fixtures.safeId host = "circuit-" +:+ host
  /\ Fixtures.safeId ("https://" +:+ host) = "circuit-" +:+ host
  /\ Fixtures.safeId ("http://" +:+ host) = "circuit-" +:+ host.
Proof.
  intros Hhost. pose proof (sanitize_fixed _ Hhost) as Hfixed.
  assert (Hbody :
    Fixtures.trim_dashes
      (Fixtures.collapse (Fixtures.dashify (String.list_ascii_of_string host)))
    = String.list_ascii_of_string host).
  { unfold Fixtures.sanitize in Hfixed.
    rewrite strip_scheme_fixed in Hfixed; [done|].
    unfold Fixtures.well_formed in Hhost.
    by apply andb_true_iff in Hhost as
      [[[? _]%andb_true_iff _]%andb_true_iff _]. }
  unfold Fixtures.safeId.
  split; [by rewrite Hfixed, String.string_of_list_ascii_of_string|].
  split.
  - rewrite list_ascii_of_append. unfold Fixtures.sanitize.
    change (Fixtures.strip_scheme
              (String.list_ascii_of_string "https://"
               ++ String.list_ascii_of_string host))
      with (String.list_ascii_of_string host).
    by rewrite Hbody, String.string_of_list_ascii_of_string.
  - rewrite list_ascii_of_append. unfold Fixtures.sanitize.
    change (Fixtures.strip_scheme
              (String.list_ascii_of_string "http://"
               ++ String.list_ascii_of_string host))
      with (String.list_ascii_of_string host).
    by rewrite Hbody, String.string_of_list_ascii_of_string.
Qed.

Lemma safeId_keeps_a_well_formed_host_witness :
  Fixtures.safeId "https://api-example-com" = "circuit-api-example-com".
Proof.
  destruct (safeId_keeps_a_well_formed_host "api-example-com" eq_refl)
    as (_ & Hhttps & _).
  exact Hhttps.
Defined.

(** X20.  The scheme does not count: the ["https://"] and the ["http://"]
    URL of the same rest get the same id, the one made of the rest alone
    (only the first scheme of a URL is dropped). *)
Theorem safeId_ignores_the_scheme (rest : string) :
  Fixtures.safeId ("https://" +:+ rest) = Fixtures.safeId ("http://" +:+ rest)
  /\ Fixtures.safeId ("https://" +:+ rest)
     = "circuit-"
       +:+ String.string_of_list_ascii
             (Fixtures.trim_dashes
                (Fixtures.collapse
                   (Fixtures.dashify (String.list_ascii_of_string rest)))).
Proof.
  unfold Fixtures.safeId, Fixtures.sanitize. rewrite !list_ascii_of_append.
  change (Fixtures.strip_scheme
            (String.list_ascii_of_string "https://"
             ++ String.list_ascii_of_string rest))
    with (String.list_ascii_of_string rest).
  change (Fixtures.strip_scheme
            (String.list_ascii_of_string "http://"
             ++ String.list_ascii_of_string rest))
    with (String.list_ascii_of_string rest).
  done.
Qed.

(** X21.  The initial state that [createCircuitState] hands to
    [State.create] is the defaults, [url] (the URL as given, not the id),
    [state: 'CLOSED'], [failures: 0] and [lastFailure: null], overridden key
    by key by the [initialState] passed in: an entry of [initialState] is
    there as given, any other entry is that of the defaults, there is no
    further entry, and the four default keys are always present. *)
Theorem createCircuitState_merges_over_defaults (url : string) initialState key :
  let given := default ∅ initialState in
  let merged := State.initialState (Fixtures.circuit_config url initialState) in
  merged !! key
  = match given !! key with
    | Some value => Some value
    | None => Fixtures.circuit_defaults url !! key
    end
  /\ dom merged
     = dom given ∪ ({[ "url"; "state"; "failures"; "lastFailure" ]} : gset string)
  /\ (given !! "url" = None -> merged !! "url" = Some (JsString url))
  /\ (given !! "state" = None -> merged !! "state" = Some (JsString "CLOSED"))
  /\ (given !! "failures" = None -> merged !! "failures" = Some (JsNumber 0))
  /\ (given !! "lastFailure" = None -> merged !! "lastFailure" = Some JsNull).
Proof.
  intros given merged.
  assert (Hmerged : forall k,
    merged !! k
    = match given !! k with
      | Some value => Some value
      | None => Fixtures.circuit_defaults url !! k
      end).
  { intros k. subst merged. simpl. fold given. rewrite lookup_union.
    by destruct (given !! k), (Fixtures.circuit_defaults url !! k). }
  split; [apply Hmerged|]. split.
  - subst merged. simpl. fold given. rewrite dom_union_L.
    unfold Fixtures.circuit_defaults. rewrite !dom_insert_L, dom_empty_L.
    set_solver.
  - repeat split; intros Hnone; rewrite Hmerged, Hnone; reflexivity.
Qed.

Lemma createCircuitState_merges_over_defaults_witness :
  let merged :=
    State.initialState
      (Fixtures.circuit_config "https://api2.example.com"
         (Some (<["state" := JsString "OPEN"]>
                  (<["failures" := JsNumber 10]> ∅)))) in
  merged !! "url" = Some (JsString "https://api2.example.com")
  /\ merged !! "lastFailure" = Some JsNull.
Proof.
  intros merged.
  destruct (createCircuitState_merges_over_defaults "https://api2.example.com"
              (Some (<["state" := JsString "OPEN"]>
                       (<["failures" := JsNumber 10]> ∅))) "url")
    as (_ & _ & Hurl & _ & _ & Hlast).
  split; [apply Hurl; reflexivity|apply Hlast; reflexivity].
Defined.

(** ** The demo's providers under the unit *)



(** X23.  Over [UnreliableStorage] the first two reads throw and [get] falls
    back to memory; from the third read on the provider answers "not found"
    and [get] returns [undefined] for every key, also for one that memory
    holds. *)
Theorem UnreliableStorage_stops_falling_back (w : StateAsync.Runtime nat) key :
  StateAsync.storage (StateAsync.props w) = Some Demo.UnreliableStorage ->
  StateAsync.backend (snd (StateAsync.get key w)) = StateAsync.backend w + 1
  /\ StateAsync.props (snd (StateAsync.get key w)) = StateAsync.props w
  /\ (StateAsync.backend w < 2 ->
      fst (StateAsync.get key w)
      = Returns (read_property (StateAsync.currentState (StateAsync.props w)) key))
  /\ (2 <= StateAsync.backend w -> fst (StateAsync.get key w) = Returns JsUndefined).
Proof.
  intros Hstorage.
  split; [exact (get_backend w Demo.UnreliableStorage key Hstorage)|]. split; [apply get_memory|]. split.
  - intros Hfew. erewrite get_rejected; [done|exact Hstorage|].
    simpl. by rewrite (proj2 (Nat.ltb_lt _ _) Hfew).
  - intros Hmany.
    rewrite (get_resolved w Demo.UnreliableStorage key JsNull (StateAsync.backend w + 1));
      [done|done|].
    simpl. by rewrite (proj2 (Nat.ltb_ge _ _) Hmany).
Qed.

Lemma UnreliableStorage_stops_falling_back_witness :
  let w := snd (StateAsync.set "fail-key" (JsString "kept in memory") None
                  Demo.degradation_test) in
  fst (StateAsync.get "fail-key" w) = Returns (JsString "kept in memory")
  /\ fst (StateAsync.get "fail-key"
            (snd (StateAsync.get "fail-key" (snd (StateAsync.get "fail-key" w)))))
     = Returns JsUndefined.
Proof.
  intros w.
  destruct (UnreliableStorage_stops_falling_back w "fail-key" eq_refl)
    as (_ & _ & Hfirst & _).
  destruct (UnreliableStorage_stops_falling_back
              (snd (StateAsync.get "fail-key" (snd (StateAsync.get "fail-key" w))))
              "fail-key" eq_refl) as (_ & _ & _ & Hthird).
  split; [apply Hfirst; simpl; lia|apply Hthird; simpl; lia].
Defined.
